(** * Assertion watcher of Open-AutoGLM: a shallow embedding

    The development follows [phone_agent/assertion]:
    - [ocr_engine.py]        : [OCREngine]
    - [image_diff.py]        : [ImageDiffChecker]
    - [assertion_watcher.py] : [Assertion], [AssertionWatcher]
    - [runner.py]            : [AssertionResult], [AssertionRunner]

    Python floats (diff scores, thresholds, clock readings) are modelled by
    rationals [Q]; Python [int] by [Z]; [str] by [string].  Code that mutates
    [self], prints, reads the clock or may raise lives in the monad [M]: the
    state is threaded and kept when an exception is raised, as in Python. *)

From Stdlib Require Import List String Ascii Bool ZArith QArith Lia.
Import ListNotations.
Local Open Scope string_scope.
Local Open Scope Z_scope.

(** ** Exceptions and results *)

(** A Python exception: its class name and [str(e)]. *)
Record exn := mkExn { exn_class : string; exn_str : string }.

Definition IndexError (m : string) : exn := mkExn "IndexError" m.
Definition KeyError (k : string) : exn := mkExn "KeyError" ("'" ++ k ++ "'").
Definition ValueError (m : string) : exn := mkExn "ValueError" m.

(** [isinstance(e, Exception)].  Outside [Exception] are [BaseException]
    itself and the classes of the standard library derived from it directly;
    an [except Exception] clause lets them pass. *)
Definition is_Exception (e : exn) : bool :=
  negb (existsb (String.eqb (exn_class e))
          ["BaseException"; "BaseExceptionGroup"; "CancelledError"; "GeneratorExit";
           "KeyboardInterrupt"; "SystemExit"]).

(** What a call yields: a value, or a raised exception. *)
Inductive res (A : Type) : Type :=
| Ok (a : A)
| Err (e : exn).
Arguments Ok {A} a.
Arguments Err {A} e.

Definition res_bind {A B} (r : res A) (k : A -> res B) : res B :=
  match r with
  | Ok a => k a
  | Err e => Err e
  end.

Declare Scope res_scope.
Delimit Scope res_scope with res.
Notation "'let?' x ':=' c 'in' k" := (res_bind c (fun x => k))
  (at level 10, x name, c at level 100, k at level 200) : res_scope.

(** ** Python built-ins used by the code *)

(** A screenshot: the base64 text returned by the capture function. *)
Definition frame := string.

(** [t in s] on strings: [t] occurs in [s] as a substring. *)
Fixpoint py_in (t s : string) : bool :=
  String.prefix t s ||
  match s with
  | EmptyString => false
  | String _ s' => py_in t s'
  end.

(** [range(a, b)]. *)
Definition py_range (a b : Z) : list Z :=
  map (fun k => a + Z.of_nat k) (seq 0 (Z.to_nat (b - a))).

(** [l[i]]: negative indices count from the end, out of range raises. *)
Definition py_index {A} (l : list A) (i : Z) : res A :=
  let n := Z.of_nat (List.length l) in
  let j := if i <? 0 then n + i else i in
  if (0 <=? j) && (j <? n) then
    match nth_error l (Z.to_nat j) with
    | Some x => Ok x
    | None => Err (IndexError "list index out of range")
    end
  else Err (IndexError "list index out of range").

(** [x > y] on floats. *)
Definition Qgtb (x y : Q) : bool := negb (Qle_bool x y).

(** [x < y] on floats. *)
Definition Qltb (x y : Q) : bool := negb (Qle_bool y x).

(** ** External libraries: base64, PIL, numpy

    [calculate_diff] only composes library calls; each may raise.  What
    these calls raise on their arguments ([binascii.Error], [ImportError],
    [OSError], [ValueError], ...) are instances of [Exception], which line 56
    of image_diff.py catches. *)
Record ImageLib := {
  image : Type;
  b64decode : string -> res string;            (* base64.b64decode *)
  import_PIL : res unit;                       (* from PIL import Image *)
  Image_open : string -> res image;            (* Image.open(BytesIO(data)) *)
  size : image -> Z * Z;                       (* img.size *)
  resize : image -> Z * Z -> res image;        (* img.resize(size) *)
  (* np.mean(np.abs(np.array(a).astype(float) - np.array(b).astype(float))) *)
  mean_abs_diff : image -> image -> res Q
}.

Definition size_eqb (a b : Z * Z) : bool :=
  (fst a =? fst b) && (snd a =? snd b).

(** ** ocr_engine.py *)

(** [extract_text] is the method a real engine overrides; the class of the
    source is [OCREngine_default]. *)
Record OCREngine := {
  device_id : option string;
  extract_text : frame -> list string
}.

(** The placeholder body of [OCREngine.extract_text]: [return []]. *)
Definition OCREngine_default : OCREngine :=
  {| device_id := None; extract_text := fun _ => [] |}.

Definition contains_text (self : OCREngine) (image_base64 : frame) (target_text : string) : bool :=
  let texts := extract_text self image_base64 in
  existsb (fun text => py_in target_text text) texts.

Definition not_contains_text (self : OCREngine) (image_base64 : frame) (target_text : string) : bool :=
  negb (contains_text self image_base64 target_text).

(** ** Data classes *)

Record Assertion := {
  type : string;     (* text_exists, text_not_exists, image_changed *)
  value : string;
  timeout : Q
}.

Record AssertionResult := {
  success : bool;
  message : string;
  elapsed_time : Q;
  screenshot_path : option string
}.

Record ImageDiffChecker := { threshold : Q }.

(** [ImageDiffChecker()] : threshold 0.15. *)
Definition ImageDiffChecker_default : ImageDiffChecker := {| threshold := 15 # 100 |}.

Record AssertionWatcher := {
  ocr_engine : OCREngine;
  image_diff_checker : ImageDiffChecker;
  poll_interval : Q;
  stable_frames : Z;
  stable_threshold : Q;
  _running : bool;
  _last_screenshot : option frame;
  _recent_screenshots : list frame
}.

(** ** Printed lines

    One constructor per [print] of the source, carrying the interpolated
    values. *)
Inductive event :=
| PrintDiffFailed (e : exn)                   (* 计算图片差异失败: {e} *)
| PrintWatchStart (timeout : Q) (count : nat) (* 开始监听断言 / 断言数量 *)
| PrintHit (msg : string)                     (* ✅ {msg} *)
| PrintWatchTimeout (timeout : Q)             (* 断言超时未命中 *)
| PrintRunBanner (prompt : string) (l : list Assertion)
| PrintAgentStarted                           (* AI 操作已启动 *)
| PrintAgentStopped.                          (* AI 操作已停止 *)

(** ** The world and the program state *)

(** The environment answers the calls the program makes to it: the [n]-th
    reading of [time.time()], the [n]-th call of the capture function, the
    [n]-th call of the failure-screenshot function, the agent's run. *)
Record Env := {
  lib : ImageLib;
  time_time : nat -> Q;
  screenshot_func : nat -> res frame;
  save_screenshot_func : option (nat -> res (option string));
  agent_run : string -> res string;
  (* whether the agent thread has stored its result before the runner returns *)
  agent_done : bool
}.

Record St := {
  watcher : AssertionWatcher;
  _agent_result : option string;
  _agent_error : option exn;
  time_calls : nat;
  shot_calls : nat;
  save_calls : nat;
  stdout : list event
}.

(** ** The monad: state, exceptions, fuel for [while] *)

(** [None]: the fuel of a [while] loop ran out.  An exception keeps the state
    reached when it was raised. *)
Definition M (A : Type) : Type := St -> option (res A * St).

Definition ret {A} (a : A) : M A := fun s => Some (Ok a, s).

Definition raise {A} (e : exn) : M A := fun s => Some (Err e, s).

Definition bind {A B} (c : M A) (k : A -> M B) : M B :=
  fun s =>
    match c s with
    | Some (Ok a, s') => k a s'
    | Some (Err e, s') => Some (Err e, s')
    | None => None
    end.

(** [try: c  except Exception as e: h e].  An exception that is not an
    [Exception] is not caught: it leaves the statement with the state reached
    when it was raised. *)
Definition try_except {A} (c : M A) (h : exn -> M A) : M A :=
  fun s =>
    match c s with
    | Some (Err e, s') => if is_Exception e then h e s' else Some (Err e, s')
    | r => r
    end.

Definition lift_res {A} (r : res A) : M A :=
  match r with
  | Ok a => ret a
  | Err e => raise e
  end.

Declare Scope m_scope.
Delimit Scope m_scope with M.
Notation "x <- c ;; k" := (bind c (fun x => k))
  (at level 61, c at next level, right associativity) : m_scope.
Notation "c ;; k" := (bind c (fun _ => k))
  (at level 61, right associativity) : m_scope.
Local Open Scope m_scope.

Definition get_self : M AssertionWatcher := fun s => Some (Ok (watcher s), s).

Definition set_watcher (w : AssertionWatcher) (s : St) : St :=
  {| watcher := w; _agent_result := _agent_result s; _agent_error := _agent_error s;
     time_calls := time_calls s; shot_calls := shot_calls s; save_calls := save_calls s;
     stdout := stdout s |}.

Definition emit (out : list event) (s : St) : St :=
  {| watcher := watcher s; _agent_result := _agent_result s; _agent_error := _agent_error s;
     time_calls := time_calls s; shot_calls := shot_calls s; save_calls := save_calls s;
     stdout := stdout s ++ out |}.

Definition print (ev : event) : M unit := fun s => Some (Ok tt, emit [ev] s).

(** ** image_diff.py *)

Section ImageDiff.
Variable L : ImageLib.

(** The [try] block of [calculate_diff]. *)
Definition diff_ratio (image1_base64 image2_base64 : frame) : res Q :=
  (let? img1_data := b64decode L image1_base64 in
   let? img2_data := b64decode L image2_base64 in
   let? _ := import_PIL L in
   let? img1 := Image_open L img1_data in
   let? img2 := Image_open L img2_data in
   let? img2 := (if size_eqb (size L img1) (size L img2) then Ok img2
                 else resize L img2 (size L img1)) in
   let? diff := mean_abs_diff L img1 img2 in
   Ok (diff / (255 # 1))%Q)%res.

Definition calculate_diff (image1_base64 image2_base64 : frame) : M Q :=
  match diff_ratio image1_base64 image2_base64 with
  | Ok d => ret d
  | Err e => print (PrintDiffFailed e) ;; ret 0%Q
  end.

Definition has_changed (self : ImageDiffChecker) (image1_base64 image2_base64 : frame) : M bool :=
  diff <- calculate_diff image1_base64 image2_base64 ;;
  ret (Qgtb diff (threshold self)).

(** The [for] loop of [is_stable], over the indices still to visit. *)
Fixpoint is_stable_loop (recent_images : list frame) (stable_threshold : Q)
    (indices : list Z) : M bool :=
  match indices with
  | [] => ret true
  | i :: rest =>
      a <- lift_res (py_index recent_images (i - 1)) ;;
      b <- lift_res (py_index recent_images i) ;;
      diff <- calculate_diff a b ;;
      if Qgtb diff stable_threshold then ret false
      else is_stable_loop recent_images stable_threshold rest
  end.

Definition is_stable (recent_images : list frame) (stable_frames : Z)
    (stable_threshold : Q) : M bool :=
  let n := Z.of_nat (List.length recent_images) in
  if n <? stable_frames then ret false
  else is_stable_loop recent_images stable_threshold (py_range (n - stable_frames + 1) n).
End ImageDiff.

(** ** assertion_watcher.py *)

(** [AssertionWatcher.__init__]; [None] picks the default collaborator. *)
Definition AssertionWatcher_init (ocr : option OCREngine) (checker : option ImageDiffChecker)
    (poll_interval : Q) (stable_frames : Z) (stable_threshold : Q) : AssertionWatcher :=
  {| ocr_engine := match ocr with Some o => o | None => OCREngine_default end;
     image_diff_checker := match checker with Some c => c | None => ImageDiffChecker_default end;
     poll_interval := poll_interval;
     stable_frames := stable_frames;
     stable_threshold := stable_threshold;
     _running := false;
     _last_screenshot := None;
     _recent_screenshots := [] |}.

(** [AssertionWatcher(screenshot_func)]: every keyword at its default. *)
Definition AssertionWatcher_new : AssertionWatcher :=
  AssertionWatcher_init None None (5 # 10) 3 (5 # 100).

Definition with_running (b : bool) (w : AssertionWatcher) : AssertionWatcher :=
  {| ocr_engine := ocr_engine w; image_diff_checker := image_diff_checker w;
     poll_interval := poll_interval w; stable_frames := stable_frames w;
     stable_threshold := stable_threshold w;
     _running := b;
     _last_screenshot := _last_screenshot w;
     _recent_screenshots := _recent_screenshots w |}.

Definition with_last (f : option frame) (w : AssertionWatcher) : AssertionWatcher :=
  {| ocr_engine := ocr_engine w; image_diff_checker := image_diff_checker w;
     poll_interval := poll_interval w; stable_frames := stable_frames w;
     stable_threshold := stable_threshold w;
     _running := _running w;
     _last_screenshot := f;
     _recent_screenshots := _recent_screenshots w |}.

Definition with_recent (l : list frame) (w : AssertionWatcher) : AssertionWatcher :=
  {| ocr_engine := ocr_engine w; image_diff_checker := image_diff_checker w;
     poll_interval := poll_interval w; stable_frames := stable_frames w;
     stable_threshold := stable_threshold w;
     _running := _running w;
     _last_screenshot := _last_screenshot w;
     _recent_screenshots := l |}.

Definition update_self (f : AssertionWatcher -> AssertionWatcher) : M unit :=
  fun s => Some (Ok tt, set_watcher (f (watcher s)) s).

(** [f"断言命中: {assertion.type} = {assertion.value}"]. *)
Definition hit_message (assertion : Assertion) : string :=
  "断言命中: " ++ type assertion ++ " = " ++ value assertion.

Section Watcher.
Variable E : Env.

(** [time.time()]: the next reading of the clock. *)
Definition time_now : M Q :=
  fun s => Some (Ok (time_time E (time_calls s)),
    {| watcher := watcher s; _agent_result := _agent_result s; _agent_error := _agent_error s;
       time_calls := S (time_calls s); shot_calls := shot_calls s; save_calls := save_calls s;
       stdout := stdout s |}).

(** [time.sleep(secs)]: a negative length raises; the time that passes shows
    in the later clock readings. *)
Definition time_sleep (secs : Q) : M unit :=
  if Qltb secs 0 then raise (ValueError "sleep length must be non-negative")
  else ret tt.

(** [self.screenshot_func()]. *)
Definition call_screenshot_func : M frame :=
  fun s => Some (screenshot_func E (shot_calls s),
    {| watcher := watcher s; _agent_result := _agent_result s; _agent_error := _agent_error s;
       time_calls := time_calls s; shot_calls := S (shot_calls s); save_calls := save_calls s;
       stdout := stdout s |}).

Definition _is_screen_stable : M bool :=
  self <- get_self ;;
  if Z.of_nat (List.length (_recent_screenshots self)) <? stable_frames self then ret false
  else is_stable (lib E) (_recent_screenshots self) (stable_frames self) (stable_threshold self).

Definition check_assertion (assertion : Assertion) (current_screenshot : frame) : M bool :=
  stable <- _is_screen_stable ;;
  if negb stable then ret false
  else
    self <- get_self ;;
    if String.eqb (type assertion) "text_exists" then
      ret (contains_text (ocr_engine self) current_screenshot (value assertion))
    else if String.eqb (type assertion) "text_not_exists" then
      ret (not_contains_text (ocr_engine self) current_screenshot (value assertion))
    else if String.eqb (type assertion) "image_changed" then
      match _last_screenshot self with
      | None => ret false
      | Some last => has_changed (lib E) (image_diff_checker self) last current_screenshot
      end
    else ret false.

(** The [for assertion in assertions] loop of [watch]: [Some msg] when the
    body returned [True, msg], [None] when the loop ran to its end. *)
Fixpoint check_assertions (assertions : list Assertion) (current_screenshot : frame)
    : M (option string) :=
  match assertions with
  | [] => ret None
  | assertion :: rest =>
      hit <- check_assertion assertion current_screenshot ;;
      if hit then
        update_self (with_running false) ;;
        let msg := hit_message assertion in
        print (PrintHit msg) ;;
        ret (Some msg)
      else check_assertions rest current_screenshot
  end.

(** [self._recent_screenshots.pop(0)]. *)
Definition pop_first : M unit :=
  self <- get_self ;;
  match _recent_screenshots self with
  | [] => raise (IndexError "pop from empty list")
  | _ :: rest => update_self (with_recent rest)
  end.

(** Lines 114-116 of [watch]: append the frame, drop the first one when the
    list has grown past [stable_frames]. *)
Definition push_frame (current_screenshot : frame) : M unit :=
  update_self (fun w => with_recent (_recent_screenshots w ++ [current_screenshot]) w) ;;
  self <- get_self ;;
  if stable_frames self <? Z.of_nat (List.length (_recent_screenshots self))
  then pop_first else ret tt.

(** [self._running and (time.time() - start_time) < timeout]; [and] reads
    the clock only when [_running] holds. *)
Definition loop_condition (start_time timeout : Q) : M bool :=
  self <- get_self ;;
  if _running self then
    now <- time_now ;; ret (Qltb (now - start_time) timeout)
  else ret false.

(** The [while] loop of [watch] and the code after it; one unit of fuel per
    evaluation of the loop condition.  In this repository [stop] is called
    by the runner only, after [watch] has returned, so [_running] changes
    here through the loop's own assignments alone. *)
Fixpoint watch_loop (fuel : nat) (assertions : list Assertion) (start_time timeout : Q)
    : M (bool * option string) :=
  match fuel with
  | O => fun _ => None
  | S fuel' =>
      continue <- loop_condition start_time timeout ;;
      if continue then
        current_screenshot <- call_screenshot_func ;;
        push_frame current_screenshot ;;
        found <- check_assertions assertions current_screenshot ;;
        match found with
        | Some msg => ret (true, Some msg)
        | None =>
            update_self (with_last (Some current_screenshot)) ;;
            self <- get_self ;;
            time_sleep (poll_interval self) ;;
            watch_loop fuel' assertions start_time timeout
        end
      else
        update_self (with_running false) ;;
        print (PrintWatchTimeout timeout) ;;
        ret (false, None)
  end.

Definition watch (fuel : nat) (assertions : list Assertion) (timeout : Q)
    : M (bool * option string) :=
  update_self (with_running true) ;;
  start_time <- time_now ;;
  print (PrintWatchStart timeout (List.length assertions)) ;;
  watch_loop fuel assertions start_time timeout.

Definition stop : M unit := update_self (with_running false).
End Watcher.

(** ** runner.py *)

(** One element of the [assertions] argument of [run_with_assertion]: a dict
    read at the keys ["type"], ["value"] and ["timeout"]; [None] is an absent
    key.  The values have the types the [Assertion] dataclass declares. *)
Record AssertionDict := {
  key_type : option string;
  key_value : option string;
  key_timeout : option Q
}.

(** [a[k]]. *)
Definition getitem {A} (k : string) (entry : option A) : res A :=
  match entry with
  | Some v => Ok v
  | None => Err (KeyError k)
  end.

(** [a.get(k, default)]. *)
Definition dict_get {A} (entry : option A) (default : A) : A :=
  match entry with
  | Some v => v
  | None => default
  end.

Definition to_assertion (timeout : Q) (a : AssertionDict) : res Assertion :=
  (let? t := getitem "type" (key_type a) in
   let? v := getitem "value" (key_value a) in
   Ok {| type := t; value := v; timeout := dict_get (key_timeout a) timeout |})%res.

(** The list comprehension building [assertion_objects]. *)
Fixpoint to_assertions (timeout : Q) (assertions : list AssertionDict) : res (list Assertion) :=
  match assertions with
  | [] => Ok []
  | a :: rest =>
      (let? x := to_assertion timeout a in
       let? xs := to_assertions timeout rest in
       Ok (x :: xs))%res
  end.

(** [message or default]: [None] and the empty string are falsy. *)
Definition py_or (msg : option string) (default : string) : string :=
  match msg with
  | Some (String c m) => String c m
  | _ => default
  end.

(** [AssertionRunner.__init__]: a fresh watcher with default settings, no
    agent result yet; nothing has been asked of the world. *)
Definition AssertionRunner_init : St :=
  {| watcher := AssertionWatcher_new;
     _agent_result := None; _agent_error := None;
     time_calls := 0; shot_calls := 0; save_calls := 0; stdout := [] |}.

Section Runner.
Variable E : Env.

(** The body of the agent thread.  Its only trace on the runner is one of the
    two fields it stores into; [agent_done] tells whether it got that far.
    Line 157 is [except Exception]: another exception ends the thread and is
    stored nowhere. *)
Definition run_agent (prompt : string) : M unit :=
  fun s =>
    if agent_done E then
      Some (Ok tt,
        match agent_run E prompt with
        | Ok r =>
            {| watcher := watcher s; _agent_result := Some r; _agent_error := _agent_error s;
               time_calls := time_calls s; shot_calls := shot_calls s;
               save_calls := save_calls s; stdout := stdout s |}
        | Err e =>
            if is_Exception e then
              {| watcher := watcher s; _agent_result := _agent_result s;
                 _agent_error := Some e;
                 time_calls := time_calls s; shot_calls := shot_calls s;
                 save_calls := save_calls s; stdout := stdout s |}
            else s
        end)
    else Some (Ok tt, s).

Definition _start_agent_async (prompt : string) : M unit :=
  run_agent prompt ;;
  print PrintAgentStarted.

Definition _stop_agent : M unit :=
  stop ;;
  print PrintAgentStopped.

(** [self.save_screenshot_func()]. *)
Definition call_save_screenshot_func (f : nat -> res (option string)) : M (option string) :=
  fun s => Some (f (save_calls s),
    {| watcher := watcher s; _agent_result := _agent_result s; _agent_error := _agent_error s;
       time_calls := time_calls s; shot_calls := shot_calls s; save_calls := S (save_calls s);
       stdout := stdout s |}).

(** [screenshot_path = None; if self.save_screenshot_func: screenshot_path = ...]. *)
Definition failure_screenshot : M (option string) :=
  match save_screenshot_func E with
  | Some f => call_save_screenshot_func f
  | None => ret None
  end.

(** The [try] statement of [run_with_assertion] (lines 108-150). *)
Definition watch_and_report (fuel : nat) (assertion_objects : list Assertion)
    (timeout start_time : Q) : M AssertionResult :=
  try_except
    (r <- watch E fuel assertion_objects timeout ;;
     _stop_agent ;;
     now <- time_now E ;;
     let elapsed := (now - start_time)%Q in
     if fst r then
       ret {| success := true; message := py_or (snd r) "断言通过";
              elapsed_time := elapsed; screenshot_path := None |}
     else
       path <- failure_screenshot ;;
       ret {| success := false; message := "断言超时未命中";
              elapsed_time := elapsed; screenshot_path := path |})
    (fun e =>
       _stop_agent ;;
       now <- time_now E ;;
       let elapsed := (now - start_time)%Q in
       path <- failure_screenshot ;;
       ret {| success := false; message := "断言执行异常: " ++ exn_str e;
              elapsed_time := elapsed; screenshot_path := path |}).

Definition run_with_assertion (fuel : nat) (prompt : string)
    (assertions : list AssertionDict) (timeout : Q) : M AssertionResult :=
  start_time <- time_now E ;;
  assertion_objects <- lift_res (to_assertions timeout assertions) ;;
  print (PrintRunBanner prompt assertion_objects) ;;
  _start_agent_async prompt ;;
  watch_and_report fuel assertion_objects timeout start_time.
End Runner.

(** ** A small concrete world, for running the model

    Images are their own text: decoding fails on the empty string, opening
    fails on text that starts with ["?"]; two images differ by 0 when equal
    and by 255 (ratio 1) otherwise. *)
Definition toy_lib : ImageLib :=
  {| image := string;
     b64decode := fun s => if String.eqb s "" then Err (ValueError "Incorrect padding") else Ok s;
     import_PIL := Ok tt;
     Image_open := fun d => if String.prefix "?" d
                            then Err (mkExn "UnidentifiedImageError" "cannot identify image file")
                            else Ok d;
     size := fun _ => (1, 1);
     resize := fun d _ => Ok d;
     mean_abs_diff := fun a b => Ok (if String.eqb a b then 0%Q else (255 # 1)) |}.

Definition offline : exn := mkExn "RuntimeError" "device offline".

(** A world over [toy_lib]: the clock advances one second per reading, the
    capture function replays [shots] and raises [offline] after them. *)
Definition toy_env (shots : list (res frame)) (save : option (nat -> res (option string))) : Env :=
  {| lib := toy_lib;
     time_time := fun n => inject_Z (Z.of_nat n);
     screenshot_func := fun n => nth n shots (Err offline);
     save_screenshot_func := save;
     agent_run := fun _ => Ok "done";
     agent_done := true |}.

Definition state_of (w : AssertionWatcher) : St :=
  {| watcher := w; _agent_result := None; _agent_error := None;
     time_calls := 0; shot_calls := 0; save_calls := 0; stdout := [] |}.

(** ** Vocabulary of the statements *)

(** The value [calculate_diff] returns and the lines it prints. *)
Definition score (L : ImageLib) (a b : frame) : Q :=
  match diff_ratio L a b with
  | Ok d => d
  | Err _ => 0%Q
  end.

Definition diff_warning (L : ImageLib) (a b : frame) : list event :=
  match diff_ratio L a b with
  | Ok _ => []
  | Err e => [PrintDiffFailed e]
  end.

(** Under watcher [w], [c] returns [a], prints [out] and changes nothing else. *)
Definition emits {A} (w : AssertionWatcher) (c : M A) (a : A) (out : list event) : Prop :=
  forall s, watcher s = w -> c s = Some (Ok a, emit out s).

(** The last [n] elements of [l] (all of [l] when it is shorter). *)
Definition keep_last {A} (n : Z) (l : list A) : list A :=
  skipn (List.length l - Z.to_nat n) l.

(** The frames returned by the capture calls number [from], ..., [from + n - 1];
    a call that raised returned none. *)
Definition captured (E : Env) (from n : nat) : list frame :=
  flat_map (fun i => match screenshot_func E i with Ok x => [x] | Err _ => [] end)
           (seq from n).

(** The consecutive pairs of [l] all score at most [thr]. *)
Definition pairs_within (L : ImageLib) (thr : Q) (l : list frame) : Prop :=
  forall j x y, nth_error l j = Some x -> nth_error l (S j) = Some y ->
    (score L x y <= thr)%Q.

(** Forgetting what the agent thread stored. *)
Definition set_agent (r : option string) (e : option exn) (s : St) : St :=
  {| watcher := watcher s; _agent_result := r; _agent_error := e;
     time_calls := time_calls s; shot_calls := shot_calls s; save_calls := save_calls s;
     stdout := stdout s |}.

(** The same world with another agent. *)
Definition with_agent (run : string -> res string) (done : bool) (E : Env) : Env :=
  {| lib := lib E; time_time := time_time E; screenshot_func := screenshot_func E;
     save_screenshot_func := save_screenshot_func E;
     agent_run := run; agent_done := done |}.

(** The watcher as [watch] would find it had the window and the previous frame
    been cleared. *)
Definition cleared (s : St) : St :=
  set_watcher (with_recent [] (with_last None (watcher s))) s.

(** Every dict carries the keys ["type"] and ["value"]. *)
Definition well_formed (assertions : list AssertionDict) : Prop :=
  Forall (fun a => key_type a <> None /\ key_value a <> None) assertions.

(** [r] is a returned [AssertionResult] with this verdict, message and
    failure artifact. *)
Definition reported (r : res AssertionResult) (ok : bool) (msg : string)
    (path : option string) : Prop :=
  exists result,
    r = Ok result /\ success result = ok /\ message result = msg /\
    screenshot_path result = path.

(** What the [except] handler of [run_with_assertion] comes to for the caught
    exception [e], when its call of the failure-screenshot function is the
    [n]-th: a failed result with the text of [e] and the value of that call
    attached, or the exception that call raises. *)
Definition handled (E : Env) (e : exn) (n : nat) (r : res AssertionResult) : Prop :=
  match save_screenshot_func E with
  | None => reported r false ("断言执行异常: " ++ exn_str e) None
  | Some f =>
      match f n with
      | Ok path => reported r false ("断言执行异常: " ++ exn_str e) path
      | Err e' => r = Err e'
      end
  end.

(** The clock passes the deadline of a watch started in [s] within [fuel]
    readings. *)
Definition deadline_within (E : Env) (fuel : nat) (timeout : Q) (s : St) : Prop :=
  exists k, (k < fuel)%nat /\
    Qltb (time_time E (S (S (time_calls s)) + k) - time_time E (S (time_calls s))) timeout
      = false.

(** The state the [for] loop of [watch] leaves: a hit clears [_running]. *)
Definition hit_state (found : option string) (s : St) : St :=
  match found with
  | Some _ => set_watcher (with_running false (watcher s)) s
  | None => s
  end.

(** The window after lines 114-116 of [watch] pushed [x]. *)
Definition pushed (stable_frames : Z) (recent : list frame) (x : frame) : list frame :=
  if stable_frames <? Z.of_nat (List.length (recent ++ [x])) then tl (recent ++ [x])
  else recent ++ [x].

(** The state after one more reading of the clock, one more capture. *)
Definition tick_clock (s : St) : St :=
  {| watcher := watcher s; _agent_result := _agent_result s; _agent_error := _agent_error s;
     time_calls := S (time_calls s); shot_calls := shot_calls s; save_calls := save_calls s;
     stdout := stdout s |}.

Definition tick_shot (s : St) : St :=
  {| watcher := watcher s; _agent_result := _agent_result s; _agent_error := _agent_error s;
     time_calls := time_calls s; shot_calls := S (shot_calls s); save_calls := save_calls s;
     stdout := stdout s |}.

(** The settings of a watcher, which no method changes. *)
Definition same_config (w w' : AssertionWatcher) : Prop :=
  ocr_engine w' = ocr_engine w /\
  image_diff_checker w' = image_diff_checker w /\
  poll_interval w' = poll_interval w /\
  stable_frames w' = stable_frames w /\
  stable_threshold w' = stable_threshold w.

(** The state in which the assertions of a tick are checked: the clock was
    read, [x] was captured and pushed. *)
Definition after_push (x : frame) (s : St) : St :=
  set_watcher (with_recent (pushed (stable_frames (watcher s)) (_recent_screenshots (watcher s)) x)
                           (watcher s))
              (tick_shot (tick_clock s)).

(** The loop condition of [watch] in state [s]. *)
Definition continues (E : Env) (start_time timeout : Q) (s : St) : bool :=
  _running (watcher s) && Qltb (time_time E (time_calls s) - start_time) timeout.

(** The runs of the [while] loop of [watch], tick by tick: from [s] the loop
    ends with result [r] in state [s']. *)
Inductive loop_run (E : Env) (assertions : list Assertion) (start_time timeout : Q)
  : St -> res (bool * option string) -> St -> Prop :=
| loop_exit s :
    continues E start_time timeout s = false ->
    loop_run E assertions start_time timeout s (Ok (false, None))
      (emit [PrintWatchTimeout timeout]
            (set_watcher (with_running false (watcher s))
                         (if _running (watcher s) then tick_clock s else s)))
| loop_capture_raises s e :
    continues E start_time timeout s = true ->
    screenshot_func E (shot_calls s) = Err e ->
    loop_run E assertions start_time timeout s (Err e) (tick_shot (tick_clock s))
| loop_hit s x msg s3 :
    continues E start_time timeout s = true ->
    screenshot_func E (shot_calls s) = Ok x ->
    check_assertions E assertions x (after_push x s) = Some (Ok (Some msg), s3) ->
    loop_run E assertions start_time timeout s (Ok (true, Some msg)) s3
| loop_sleep_raises s x s3 :
    continues E start_time timeout s = true ->
    screenshot_func E (shot_calls s) = Ok x ->
    check_assertions E assertions x (after_push x s) = Some (Ok None, s3) ->
    Qltb (poll_interval (watcher s3)) 0 = true ->
    loop_run E assertions start_time timeout s
      (Err (ValueError "sleep length must be non-negative"))
      (set_watcher (with_last (Some x) (watcher s3)) s3)
| loop_next s x s3 r s' :
    continues E start_time timeout s = true ->
    screenshot_func E (shot_calls s) = Ok x ->
    check_assertions E assertions x (after_push x s) = Some (Ok None, s3) ->
    Qltb (poll_interval (watcher s3)) 0 = false ->
    loop_run E assertions start_time timeout
      (set_watcher (with_last (Some x) (watcher s3)) s3) r s' ->
    loop_run E assertions start_time timeout s r s'.

(** The state in which [watch] enters its loop. *)
Definition loop_entry (timeout : Q) (count : nat) (s : St) : St :=
  emit [PrintWatchStart timeout count]
       (tick_clock (set_watcher (with_running true (watcher s)) s)).

(** The window of [s'] holds the last [stable_frames] frames of the window of
    [s] followed by the frames captured in between, oldest first. *)
Definition window_follows (E : Env) (s s' : St) : Prop :=
  _recent_screenshots (watcher s') =
  keep_last (stable_frames (watcher s))
            (_recent_screenshots (watcher s) ++
             captured E (shot_calls s) (shot_calls s' - shot_calls s)).

(** The window holds at most [stable_frames] frames. *)
Definition window_bounded (s : St) : Prop :=
  Z.of_nat (List.length (_recent_screenshots (watcher s))) <= stable_frames (watcher s).

(** [c] neither reads nor writes what the agent thread stored. *)
Definition blind {A} (c : M A) : Prop :=
  forall r e s,
    c (set_agent r e s) =
    match c s with
    | Some (a, s') => Some (a, set_agent r e s')
    | None => None
    end.

(** The runner once the agent thread has stored what it stores. *)
Definition agent_stored (E : Env) (prompt : string) (s : St) : St :=
  if agent_done E then
    match agent_run E prompt with
    | Ok r => set_agent (Some r) (_agent_error s) s
    | Err e => if is_Exception e then set_agent (_agent_result s) (Some e) s else s
    end
  else s.

(** The state in which [run_with_assertion] calls [watch]. *)
Definition run_entry (E : Env) (prompt : string) (objs : list Assertion) (s : St) : St :=
  emit [PrintAgentStarted]
       (agent_stored E prompt (emit [PrintRunBanner prompt objs] (tick_clock s))).

(** ** Concrete worlds and states *)

Definition text_exists_x : Assertion :=
  {| type := "text_exists"; value := "x"; timeout := 10 |}.

Definition text_not_exists_x : Assertion :=
  {| type := "text_not_exists"; value := "x"; timeout := 10 |}.

Definition text_not_exists_y : Assertion :=
  {| type := "text_not_exists"; value := "y"; timeout := 10 |}.

(** A screen that shows the same frame at every capture (six of them). *)
Definition still_screen : Env := toy_env (repeat (Ok "A") 6) None.

(** A device that fails the first capture and works afterwards. *)
Definition offline_first : Env := toy_env [Err offline; Ok "A"; Ok "A"; Ok "A"] None.

(** A device that is gone, with a failure-screenshot function that raises too. *)
Definition offline_all : Env := toy_env [] (Some (fun _ => Err offline)).

(** A still screen with a failure-screenshot function that returns a path. *)
Definition still_screen_saving : Env :=
  toy_env (repeat (Ok "A") 6) (Some (fun _ => Ok (Some "fail.png"))).

(** What Ctrl-C raises. *)
Definition interrupt : exn := mkExn "KeyboardInterrupt" "".

(** Ctrl-C during the second capture of the still screen. *)
Definition interrupted : Env :=
  toy_env [Ok "A"; Err interrupt; Ok "A"; Ok "A"] (Some (fun _ => Ok (Some "fail.png"))).

Definition dict_text_exists_x : AssertionDict :=
  {| key_type := Some "text_exists"; key_value := Some "x"; key_timeout := None |}.

Definition dict_without_type : AssertionDict :=
  {| key_type := None; key_value := Some "x"; key_timeout := None |}.

(** A watcher in the middle of a watch: two frames seen, clock read once. *)
Definition warm : St :=
  {| watcher := with_running true
                  (with_last (Some "A") (with_recent ["A"; "A"] AssertionWatcher_new));
     _agent_result := None; _agent_error := None;
     time_calls := 1; shot_calls := 2; save_calls := 0; stdout := [] |}.

(** The runner after a first watch of four seconds on the still screen found
    no ["x"]: three frames were captured. *)
Definition after_first_watch : St :=
  Eval vm_compute in
    match watch still_screen 10 [text_exists_x] 4 AssertionRunner_init with
    | Some (_, s) => s
    | None => AssertionRunner_init
    end.

(** ** Further vocabulary *)

(** The newest frame of a window. *)
Definition newest (l : list frame) : option frame := last (map Some l) None.

(** The previous frame is the newest frame of the window (none when the
    window is empty): the state between two ticks of a watch. *)
Definition synced (s : St) : Prop :=
  _last_screenshot (watcher s) = newest (_recent_screenshots (watcher s)).

(** One of the three kinds [check_assertion] knows. *)
Definition known_kind (ty : string) : Prop :=
  ty = "text_exists" \/ ty = "text_not_exists" \/ ty = "image_changed".

(** Two assertions that differ in their [timeout] at most. *)
Definition same_kind_value (a a' : Assertion) : Prop :=
  type a = type a' /\ value a = value a'.

(** The [Assertion] built from a dict that has both keys. *)
Definition assertion_of (timeout : Q) (a : AssertionDict) : Assertion :=
  {| type := dict_get (key_type a) ""; value := dict_get (key_value a) "";
     timeout := dict_get (key_timeout a) timeout |}.

(** The state [_stop_agent] and the last clock reading leave. *)
Definition stopped (s : St) : St :=
  tick_clock (emit [PrintAgentStopped] (set_watcher (with_running false (watcher s)) s)).

(** One more call of the failure-screenshot function. *)
Definition tick_save (s : St) : St :=
  {| watcher := watcher s; _agent_result := _agent_result s; _agent_error := _agent_error s;
     time_calls := time_calls s; shot_calls := shot_calls s; save_calls := S (save_calls s);
     stdout := stdout s |}.

(** What the [except] handler of [run_with_assertion] yields for the caught
    exception [e], entered in state [s]. *)
Definition handler_outcome (E : Env) (start_time : Q) (e : exn) (s : St)
    : option (res AssertionResult * St) :=
  let elapsed := (time_time E (time_calls s) - start_time)%Q in
  let report path :=
    {| success := false; message := "断言执行异常: " ++ exn_str e;
       elapsed_time := elapsed; screenshot_path := path |} in
  match save_screenshot_func E with
  | None => Some (Ok (report None), stopped s)
  | Some f =>
      match f (save_calls s) with
      | Ok path => Some (Ok (report path), tick_save (stopped s))
      | Err e' => Some (Err e', tick_save (stopped s))
      end
  end.

(** What the [try] statement of [run_with_assertion] yields once [watch] has
    ended with [wr] in state [s2]. *)
Definition report_outcome (E : Env) (start_time : Q) (wr : res (bool * option string))
    (s2 : St) : option (res AssertionResult * St) :=
  let elapsed := (time_time E (time_calls s2) - start_time)%Q in
  match wr with
  | Ok (true, m) =>
      Some (Ok {| success := true; message := py_or m "断言通过";
                  elapsed_time := elapsed; screenshot_path := None |}, stopped s2)
  | Ok (false, _) =>
      let report path :=
        {| success := false; message := "断言超时未命中";
           elapsed_time := elapsed; screenshot_path := path |} in
      match save_screenshot_func E with
      | None => Some (Ok (report None), stopped s2)
      | Some f =>
          match f (save_calls s2) with
          | Ok path => Some (Ok (report path), tick_save (stopped s2))
          | Err e =>
              if is_Exception e then handler_outcome E start_time e (tick_save (stopped s2))
              else Some (Err e, tick_save (stopped s2))
          end
      end
  | Err e => if is_Exception e then handler_outcome E start_time e s2 else Some (Err e, s2)
  end.

(** A failure-screenshot function that raises on its first call only. *)
Definition save_fails_once (n : nat) : res (option string) :=
  match n with
  | O => Err offline
  | S _ => Ok (Some "fail.png")
  end.

Definition still_screen_save_fails_once : Env :=
  toy_env (repeat (Ok "A") 6) (Some save_fails_once).

(** The clock never goes back. *)
Definition clock_monotone (E : Env) : Prop :=
  forall n, (time_time E n <= time_time E (S n))%Q.

(** ** Further concrete worlds and states *)

(** A screen that changes once, after three captures. *)
Definition moving_screen : Env :=
  toy_env [Ok "A"; Ok "A"; Ok "A"; Ok "B"; Ok "B"; Ok "B"] None.

Definition image_changed_any : Assertion :=
  {| type := "image_changed"; value := ""; timeout := 10 |}.

(** A kind that [check_assertion] does not know. *)
Definition text_exist_typo : Assertion :=
  {| type := "text_exist"; value := "x"; timeout := 10 |}.

Definition dict_text_not_exists_x : AssertionDict :=
  {| key_type := Some "text_not_exists"; key_value := Some "x"; key_timeout := Some 5%Q |}.

(** A runner whose watcher polls with a negative interval. *)
Definition hasty : St :=
  state_of (AssertionWatcher_init None None (-1 # 2) 3 (5 # 100)).

(** * Proofs *)

Local Open Scope list_scope.

(** ** The monad and printing *)

Lemma emit_nil (s : St) : emit [] s = s.
Proof. destruct s; unfold emit; simpl; now rewrite app_nil_r. Qed.

Lemma emit_emit (o1 o2 : list event) (s : St) : emit o2 (emit o1 s) = emit (o1 ++ o2) s.
Proof. unfold emit; simpl; now rewrite app_assoc. Qed.

Lemma emits_ret {A} w (a : A) : emits w (ret a) a [].
Proof. intros s _. unfold ret. now rewrite emit_nil. Qed.

Lemma emits_bind {A B} w (c : M A) (k : A -> M B) a b o1 o2 :
  emits w c a o1 -> emits w (k a) b o2 -> emits w (bind c k) b (o1 ++ o2).
Proof.
  intros Hc Hk s Hs. unfold bind. rewrite (Hc s Hs).
  rewrite (Hk (emit o1 s)) by exact Hs. now rewrite emit_emit.
Qed.

Lemma emits_print w ev : emits w (print ev) tt [ev].
Proof. intros s _. reflexivity. Qed.

Lemma emits_get_self w : emits w get_self w [].
Proof. intros s Hs. unfold get_self. rewrite emit_nil. now subst. Qed.

Lemma emits_fun {A} w (c : M A) a1 a2 o1 o2 :
  emits w c a1 o1 -> emits w c a2 o2 -> a1 = a2.
Proof.
  intros H1 H2.
  pose (s := state_of w).
  specialize (H1 s eq_refl). specialize (H2 s eq_refl). congruence.
Qed.

(** ** image_diff.py *)

Lemma emits_calculate_diff w L a b :
  emits w (calculate_diff L a b) (score L a b) (diff_warning L a b).
Proof.
  intros s _. unfold calculate_diff, score, diff_warning.
  destruct (diff_ratio L a b); unfold ret, bind, print; simpl.
  - now rewrite emit_nil.
  - reflexivity.
Qed.

Lemma emits_has_changed w L self a b :
  emits w (has_changed L self a b) (Qgtb (score L a b) (threshold self)) (diff_warning L a b).
Proof.
  unfold has_changed.
  rewrite <- (app_nil_r (diff_warning L a b)).
  eapply emits_bind; [apply emits_calculate_diff | apply emits_ret].
Qed.

Lemma Qgtb_false (x y : Q) : Qgtb x y = false <-> (x <= y)%Q.
Proof.
  unfold Qgtb. rewrite negb_false_iff. apply Qle_bool_iff.
Qed.

Lemma Qgtb_true (x y : Q) : Qgtb x y = true <-> (y < x)%Q.
Proof.
  unfold Qgtb. rewrite negb_true_iff. split; intro H.
  - apply Qnot_le_lt. intro Hle. apply Qle_bool_iff in Hle. congruence.
  - destruct (Qle_bool x y) eqn:Hb; [|reflexivity].
    apply Qle_bool_iff in Hb. exfalso. exact (Qlt_not_le _ _ H Hb).
Qed.

Lemma py_index_in_range {A} (l : list A) (i : Z) (d : A) :
  0 <= i < Z.of_nat (List.length l) ->
  py_index l i = Ok (nth (Z.to_nat i) l d).
Proof.
  intros Hi. unfold py_index.
  destruct (i <? 0) eqn:Hneg; [apply Z.ltb_lt in Hneg; lia|].
  replace ((0 <=? i) && (i <? Z.of_nat (List.length l))) with true
    by (symmetry; apply andb_true_iff; split; [apply Z.leb_le | apply Z.ltb_lt]; lia).
  destruct (nth_error l (Z.to_nat i)) eqn:Hn.
  - now rewrite (nth_error_nth _ _ d Hn).
  - apply nth_error_None in Hn. lia.
Qed.

Lemma in_py_range (a b i : Z) : In i (py_range a b) <-> a <= i < b.
Proof.
  unfold py_range. rewrite in_map_iff. split.
  - intros [k [<- Hk]]. apply in_seq in Hk. lia.
  - intros Hi. exists (Z.to_nat (i - a)). split; [lia|]. apply in_seq. lia.
Qed.

(** The [for] loop of [is_stable] returns, and says true exactly when no
    visited pair scores above the threshold. *)
Lemma is_stable_loop_emits L (recent : list frame) (thr : Q) (indices : list Z) :
  (forall i, In i indices -> 1 <= i < Z.of_nat (List.length recent)) ->
  exists b out,
    (forall s, is_stable_loop L recent thr indices s = Some (Ok b, emit out s)) /\
    (b = true <->
     forall i, In i indices ->
       (score L (nth (Z.to_nat (i - 1)) recent "") (nth (Z.to_nat i) recent "") <= thr)%Q).
Proof.
  induction indices as [|i rest IH]; intros Hin.
  - exists true, []. split; [intros s; now apply (emits_ret (watcher s))|].
    split; [intros _ i []|reflexivity].
  - assert (Hi : 1 <= i < Z.of_nat (List.length recent)) by (apply Hin; now left).
    destruct IH as [b [out [Hrun Hb]]]; [intros j Hj; apply Hin; now right|].
    set (x := nth (Z.to_nat (i - 1)) recent "").
    set (y := nth (Z.to_nat i) recent "").
    assert (Hhead : forall s,
      is_stable_loop L recent thr (i :: rest) s =
      if Qgtb (score L x y) thr then Some (Ok false, emit (diff_warning L x y) s)
      else is_stable_loop L recent thr rest (emit (diff_warning L x y) s)).
    { intros s. cbn [is_stable_loop]. unfold bind at 1.
      rewrite (py_index_in_range recent (i - 1) "") by lia. cbn [lift_res ret].
      unfold bind at 1.
      rewrite (py_index_in_range recent i "") by lia. cbn [lift_res ret].
      unfold bind. rewrite (emits_calculate_diff (watcher s) L _ _ s eq_refl).
      fold x y. now destruct (Qgtb (score L x y) thr). }
    destruct (Qgtb (score L x y) thr) eqn:Hgt.
    + exists false, (diff_warning L x y). split; [exact Hhead|].
      split; [discriminate|]. intros Hall. exfalso.
      apply Qgtb_true in Hgt. specialize (Hall i (or_introl eq_refl)). fold x y in Hall.
      exact (Qlt_not_le _ _ Hgt Hall).
    + exists b, (diff_warning L x y ++ out). split.
      * intros s. rewrite Hhead, Hrun. now rewrite emit_emit.
      * rewrite Hb. split.
        -- intros Hall j [<-|Hj]; [now apply Qgtb_false in Hgt | now apply Hall].
        -- intros Hall j Hj. apply Hall. now right.
Qed.

Lemma nth_error_keep_last {A} (n : Z) (l : list A) (j : nat) :
  nth_error (keep_last n l) j = nth_error l (List.length l - Z.to_nat n + j)%nat.
Proof. unfold keep_last. apply nth_error_skipn. Qed.

Lemma length_keep_last {A} (n : Z) (l : list A) :
  0 <= n -> Z.of_nat (List.length (keep_last n l)) = Z.min n (Z.of_nat (List.length l)).
Proof. intros Hn. unfold keep_last. rewrite length_skipn. lia. Qed.

(** The pairs visited by [is_stable] are the consecutive pairs of the trailing
    [stable_frames] frames. *)
Lemma visited_pairs_trailing L (recent : list frame) (sf : Z) (thr : Q) :
  sf <= Z.of_nat (List.length recent) ->
  (forall i, In i (py_range (Z.of_nat (List.length recent) - sf + 1) (Z.of_nat (List.length recent))) ->
     (score L (nth (Z.to_nat (i - 1)) recent "") (nth (Z.to_nat i) recent "") <= thr)%Q)
  <-> pairs_within L thr (keep_last sf recent).
Proof.
  intros Hlen. set (n := List.length recent) in *. split.
  - intros Hall j x y Hx Hy.
    rewrite nth_error_keep_last in Hx, Hy. fold n in Hx, Hy.
    assert (Hlt : (n - Z.to_nat sf + S j < n)%nat).
    { assert (Hne : nth_error recent (n - Z.to_nat sf + S j) <> None) by congruence.
      now apply nth_error_Some in Hne. }
    specialize (Hall (Z.of_nat (n - Z.to_nat sf + S j))).
    replace (Z.to_nat (Z.of_nat (n - Z.to_nat sf + S j) - 1))
      with (n - Z.to_nat sf + j)%nat in Hall by lia.
    rewrite Nat2Z.id in Hall.
    unfold frame in *.
    rewrite (nth_error_nth _ _ "" Hx), (nth_error_nth _ _ "" Hy) in Hall.
    apply Hall. apply in_py_range. lia.
  - intros Hpairs i Hi. apply in_py_range in Hi.
    apply (Hpairs (Z.to_nat (i - 1) - (n - Z.to_nat sf))%nat).
    + rewrite nth_error_keep_last. fold n.
      replace (n - Z.to_nat sf + (Z.to_nat (i - 1) - (n - Z.to_nat sf)))%nat
        with (Z.to_nat (i - 1)) by lia.
      apply nth_error_nth'. fold n. lia.
    + rewrite nth_error_keep_last. fold n.
      replace (n - Z.to_nat sf + S (Z.to_nat (i - 1) - (n - Z.to_nat sf)))%nat
        with (Z.to_nat i) by lia.
      apply nth_error_nth'. fold n. lia.
Qed.

Lemma is_stable_short L (recent : list frame) (sf : Z) (thr : Q) (s : St) :
  Z.of_nat (List.length recent) < sf -> is_stable L recent sf thr s = Some (Ok false, s).
Proof.
  intros H. unfold is_stable. apply Z.ltb_lt in H. now rewrite H.
Qed.

Lemma is_stable_long L (recent : list frame) (sf : Z) (thr : Q) :
  sf <= Z.of_nat (List.length recent) ->
  exists b out,
    (forall s, is_stable L recent sf thr s = Some (Ok b, emit out s)) /\
    (b = true <-> pairs_within L thr (keep_last sf recent)).
Proof.
  intros H.
  destruct (is_stable_loop_emits L recent thr
              (py_range (Z.of_nat (List.length recent) - sf + 1) (Z.of_nat (List.length recent))))
    as [b [out [Hrun Hb]]].
  { intros i Hi. apply in_py_range in Hi. lia. }
  exists b, out. split.
  - intros s. unfold is_stable.
    replace (Z.of_nat (List.length recent) <? sf) with false by (symmetry; apply Z.ltb_ge; lia).
    apply Hrun.
  - rewrite Hb. now apply visited_pairs_trailing.
Qed.

Lemma is_screen_stable_unfold E (s : St) :
  _is_screen_stable E s =
  is_stable (lib E) (_recent_screenshots (watcher s)) (stable_frames (watcher s))
            (stable_threshold (watcher s)) s.
Proof.
  unfold _is_screen_stable, bind, get_self, is_stable.
  destruct (Z.of_nat (List.length (_recent_screenshots (watcher s))) <? stable_frames (watcher s));
    reflexivity.
Qed.

(** [_is_screen_stable] always returns, and only prints. *)
Lemma is_screen_stable_emits E w :
  exists b out, emits w (_is_screen_stable E) b out.
Proof.
  destruct (Z_lt_le_dec (Z.of_nat (List.length (_recent_screenshots w))) (stable_frames w)) as [Hs|Hl].
  - exists false, []. intros s Hs'. rewrite is_screen_stable_unfold. subst w.
    rewrite is_stable_short by exact Hs. now rewrite emit_nil.
  - destruct (is_stable_long (lib E) _ _ (stable_threshold w) Hl) as [b [out [Hrun _]]].
    exists b, out. intros s Hs'. rewrite is_screen_stable_unfold. subst w.
    apply Hrun.
Qed.

(** ** assertion_watcher.py: one assertion *)

Lemma emits_of_run {A} w (c : M A) (s s1 : St) (a : A) :
  (exists b out, emits w c b out) -> watcher s = w -> c s = Some (Ok a, s1) ->
  exists out, emits w c a out /\ s1 = emit out s.
Proof.
  intros [b [out Hc]] Hs Hrun. rewrite (Hc s Hs) in Hrun.
  injection Hrun as -> <-. now exists out.
Qed.

(** During instability every assertion is unmet. *)
Lemma check_assertion_unstable E w out assertion shot :
  emits w (_is_screen_stable E) false out ->
  emits w (check_assertion E assertion shot) false out.
Proof.
  intros Hst. unfold check_assertion.
  rewrite <- (app_nil_r out).
  eapply emits_bind; [exact Hst|]. cbn [negb]. apply emits_ret.
Qed.

(** On a stable window the verdict is the one of the assertion's kind. *)
Lemma check_assertion_stable E w out assertion shot :
  emits w (_is_screen_stable E) true out ->
  exists b out',
    emits w (check_assertion E assertion shot) b (out ++ out') /\
    b = (if String.eqb (type assertion) "text_exists" then
           contains_text (ocr_engine w) shot (value assertion)
         else if String.eqb (type assertion) "text_not_exists" then
           not_contains_text (ocr_engine w) shot (value assertion)
         else if String.eqb (type assertion) "image_changed" then
           match _last_screenshot w with
           | None => false
           | Some last => Qgtb (score (lib E) last shot) (threshold (image_diff_checker w))
           end
         else false).
Proof.
  intros Hst. unfold check_assertion.
  destruct (String.eqb (type assertion) "text_exists") eqn:H1;
    [|destruct (String.eqb (type assertion) "text_not_exists") eqn:H2;
      [|destruct (String.eqb (type assertion) "image_changed") eqn:H3;
        [destruct (_last_screenshot w) as [last|] eqn:Hlast|]]].
  all: eexists _, _; (split; [|reflexivity]);
       (eapply emits_bind; [exact Hst|]); cbn [negb];
       (eapply emits_bind; [apply emits_get_self|]);
       try rewrite Hlast; first [apply emits_has_changed | apply emits_ret].
Qed.

(** [check_assertion] always returns, and only prints. *)
Lemma check_assertion_emits E w assertion shot :
  exists b out, emits w (check_assertion E assertion shot) b out.
Proof.
  destruct (is_screen_stable_emits E w) as [[|] [out Hst]].
  - destruct (check_assertion_stable E w out assertion shot Hst) as [b [out' [H _]]].
    now exists b, (out ++ out').
  - exists false, out. now apply check_assertion_unstable.
Qed.

(** ** assertion_watcher.py: the [for] loop *)

Lemma set_watcher_emit w out s : set_watcher w (emit out s) = emit out (set_watcher w s).
Proof. reflexivity. Qed.

Lemma check_assertions_cons E assertion rest shot (s : St) b out :
  emits (watcher s) (check_assertion E assertion shot) b out ->
  check_assertions E (assertion :: rest) shot s =
  if b then Some (Ok (Some (hit_message assertion)),
                  emit (out ++ [PrintHit (hit_message assertion)])
                       (set_watcher (with_running false (watcher s)) s))
  else check_assertions E rest shot (emit out s).
Proof.
  intros Hc. cbn [check_assertions]. unfold bind at 1. rewrite (Hc s eq_refl).
  destruct b; [|reflexivity].
  unfold bind, update_self, print, ret. cbn.
  unfold emit, set_watcher. cbn. now rewrite <- app_assoc.
Qed.

(** The loop always returns; it prints, and clears [_running] on a hit. *)
Lemma check_assertions_emits E w assertions shot :
  exists found out, forall s, watcher s = w ->
    check_assertions E assertions shot s = Some (Ok found, emit out (hit_state found s)).
Proof.
  induction assertions as [|a rest IH].
  - exists None, []. intros s _. cbn. unfold ret. now rewrite emit_nil.
  - destruct (check_assertion_emits E w a shot) as [b [out Hc]].
    destruct b.
    + exists (Some (hit_message a)), (out ++ [PrintHit (hit_message a)]).
      intros s Hs. subst w. now rewrite (check_assertions_cons E a rest shot s true out Hc).
    + destruct IH as [found [out' IH]].
      exists found, (out ++ out'). intros s Hs. subst w.
      rewrite (check_assertions_cons E a rest shot s false out Hc).
      rewrite IH by reflexivity.
      destruct found; cbn [hit_state]; now rewrite ?set_watcher_emit, emit_emit.
Qed.

(** Declared-order precedence: the first assertion that evaluates true is the
    one reported, whatever follows it. *)
Lemma check_assertions_first E w pre a shot :
  (forall x, In x pre -> exists out, emits w (check_assertion E x shot) false out) ->
  (exists out, emits w (check_assertion E a shot) true out) ->
  exists out, forall post s, watcher s = w ->
    check_assertions E (pre ++ a :: post) shot s =
    Some (Ok (Some (hit_message a)), emit out (set_watcher (with_running false w) s)).
Proof.
  induction pre as [|x pre IH]; intros Hpre [out Ha].
  - exists (out ++ [PrintHit (hit_message a)]). intros post s Hs. subst w. cbn [app].
    now rewrite (check_assertions_cons E a post shot s true out Ha).
  - destruct (Hpre x (or_introl eq_refl)) as [ox Hx].
    destruct IH as [out' IH]; [intros y Hy; apply Hpre; now right | now exists out |].
    exists (ox ++ out'). intros post s Hs. subst w. cbn [app].
    rewrite (check_assertions_cons E x _ shot s false ox Hx).
    rewrite IH by reflexivity. now rewrite set_watcher_emit, emit_emit.
Qed.

Lemma check_assertions_none E w assertions shot :
  (forall x, In x assertions -> exists out, emits w (check_assertion E x shot) false out) ->
  exists out, emits w (check_assertions E assertions shot) None out.
Proof.
  induction assertions as [|x rest IH]; intros Hall.
  - exists []. apply emits_ret.
  - destruct (Hall x (or_introl eq_refl)) as [ox Hx].
    destruct IH as [out IH]; [intros y Hy; apply Hall; now right|].
    exists (ox ++ out). intros s Hs. subst w.
    rewrite (check_assertions_cons E x rest shot s false ox Hx).
    rewrite IH by reflexivity. now rewrite emit_emit.
Qed.

(** ** assertion_watcher.py: the [while] loop *)

Lemma push_frame_run (x : frame) (s : St) :
  push_frame x s =
  Some (Ok tt, set_watcher (with_recent (pushed (stable_frames (watcher s))
                                                (_recent_screenshots (watcher s)) x)
                                        (watcher s)) s).
Proof.
  unfold push_frame, pushed, bind, update_self, get_self, pop_first. cbn.
  destruct (stable_frames (watcher s) <? Z.of_nat (List.length (_recent_screenshots (watcher s) ++ [x]))).
  - unfold bind, get_self. cbn.
    destruct (_recent_screenshots (watcher s) ++ [x]) eqn:Happ.
    + now destruct (_recent_screenshots (watcher s)).
    + reflexivity.
  - reflexivity.
Qed.

Lemma loop_condition_run E (start_time timeout : Q) (s : St) :
  loop_condition E start_time timeout s =
  if _running (watcher s) then
    Some (Ok (Qltb (time_time E (time_calls s) - start_time) timeout), tick_clock s)
  else Some (Ok false, s).
Proof.
  unfold loop_condition, bind, get_self. now destruct (_running (watcher s)).
Qed.

(** One iteration of the [while] loop, written out on states. *)
Lemma watch_loop_step E fuel assertions (start_time timeout : Q) (s : St) :
  watch_loop E (S fuel) assertions start_time timeout s =
  if _running (watcher s) && Qltb (time_time E (time_calls s) - start_time) timeout then
    match screenshot_func E (shot_calls s) with
    | Err e => Some (Err e, tick_shot (tick_clock s))
    | Ok x =>
        let s2 := set_watcher (with_recent (pushed (stable_frames (watcher s))
                                                   (_recent_screenshots (watcher s)) x)
                                           (watcher s)) (tick_shot (tick_clock s)) in
        match check_assertions E assertions x s2 with
        | Some (Ok (Some msg), s3) => Some (Ok (true, Some msg), s3)
        | Some (Ok None, s3) =>
            let s4 := set_watcher (with_last (Some x) (watcher s3)) s3 in
            if Qltb (poll_interval (watcher s3)) 0
            then Some (Err (ValueError "sleep length must be non-negative"), s4)
            else watch_loop E fuel assertions start_time timeout s4
        | Some (Err e, s3) => Some (Err e, s3)
        | None => None
        end
    end
  else
    Some (Ok (false, None),
          emit [PrintWatchTimeout timeout]
               (set_watcher (with_running false (watcher s))
                            (if _running (watcher s) then tick_clock s else s))).
Proof.
  cbn [watch_loop]. unfold bind at 1. rewrite loop_condition_run.
  destruct (_running (watcher s)); cbn [andb].
  - destruct (Qltb (time_time E (time_calls s) - start_time) timeout).
    + unfold bind at 1. unfold call_screenshot_func.
      change (time_calls (tick_clock s)) with (S (time_calls s)).
      change (shot_calls (tick_clock s)) with (shot_calls s).
      destruct (screenshot_func E (shot_calls s)) as [x|e]; [|reflexivity].
      unfold bind at 1. rewrite push_frame_run. cbn zeta.
      unfold bind at 1.
      unfold tick_shot, tick_clock, set_watcher.
      cbn [watcher _agent_result _agent_error time_calls shot_calls save_calls stdout].
      match goal with |- _ = match ?c with _ => _ end =>
        destruct c as [[[[msg|]|e] s3]|] end; try reflexivity.
      unfold bind, update_self, get_self, time_sleep. cbn.
      destruct (Qltb (poll_interval (watcher s3)) 0); reflexivity.
    + reflexivity.
  - reflexivity.
Qed.

Lemma check_assertions_state E assertions x (s s3 : St) r :
  check_assertions E assertions x s = Some (r, s3) ->
  exists found out, r = Ok found /\ s3 = emit out (hit_state found s).
Proof.
  destruct (check_assertions_emits E (watcher s) assertions x) as [found [out H]].
  rewrite (H s eq_refl). intros [= <- <-]. now exists found, out.
Qed.

Lemma check_assertions_returns E assertions x (s : St) :
  exists found s3, check_assertions E assertions x s = Some (Ok found, s3).
Proof.
  destruct (check_assertions_emits E (watcher s) assertions x) as [found [out H]].
  rewrite (H s eq_refl). eauto.
Qed.

(** Every run of [watch_loop] that returns is a run of the loop relation. *)
Lemma watch_loop_sound E fuel assertions (start_time timeout : Q) :
  forall s r s',
    watch_loop E fuel assertions start_time timeout s = Some (r, s') ->
    loop_run E assertions start_time timeout s r s'.
Proof.
  induction fuel as [|fuel IH]; intros s r s' Hrun; [discriminate|].
  rewrite watch_loop_step in Hrun.
  fold (continues E start_time timeout s) in Hrun.
  destruct (continues E start_time timeout s) eqn:Hc.
  - destruct (screenshot_func E (shot_calls s)) as [x|e] eqn:Hshot.
    + cbn zeta in Hrun. fold (after_push x s) in Hrun.
      destruct (check_assertions E assertions x (after_push x s))
        as [[[[msg|]|e] s3]|] eqn:Hchk; try discriminate.
      * injection Hrun as <- <-. eapply loop_hit; eauto.
      * destruct (Qltb (poll_interval (watcher s3)) 0) eqn:Hp.
        -- injection Hrun as <- <-. eapply loop_sleep_raises; eauto.
        -- eapply loop_next; eauto.
      * apply check_assertions_state in Hchk. destruct Hchk as [? [? [? _]]]. discriminate.
    + injection Hrun as <- <-. now apply loop_capture_raises.
  - injection Hrun as <- <-. now apply loop_exit.
Qed.

(** More fuel does not change a run that returned. *)
Lemma watch_loop_fuel E assertions (start_time timeout : Q) :
  forall s r s', loop_run E assertions start_time timeout s r s' ->
  exists fuel, forall n, (fuel <= n)%nat ->
    watch_loop E n assertions start_time timeout s = Some (r, s').
Proof.
  intros s r s' Hrun.
  induction Hrun as [s Hc|s e Hc Hshot|s x msg s3 Hc Hshot Hchk
                    |s x s3 Hc Hshot Hchk Hp|s x s3 r s' Hc Hshot Hchk Hp Hrun [fuel IH]].
  1-4: exists 1%nat; intros [|n] Hn; [lia|]; rewrite watch_loop_step;
       fold (continues E start_time timeout s); rewrite Hc; try rewrite Hshot;
       cbn zeta; try fold (after_push x s); try rewrite Hchk; try rewrite Hp; reflexivity.
  exists (S fuel). intros [|n] Hn; [lia|]. rewrite watch_loop_step.
  fold (continues E start_time timeout s). rewrite Hc, Hshot. cbn zeta.
  fold (after_push x s). rewrite Hchk, Hp. apply IH. lia.
Qed.

Lemma watch_unfold E fuel assertions (timeout : Q) (s : St) :
  watch E fuel assertions timeout s =
  watch_loop E fuel assertions (time_time E (time_calls s)) timeout
             (loop_entry timeout (List.length assertions) s).
Proof. reflexivity. Qed.

(** ** The rolling window *)

Ltac state_fields :=
  cbn [watcher shot_calls time_calls save_calls stdout emit hit_state set_watcher after_push
       tick_shot tick_clock _recent_screenshots _last_screenshot _running stable_frames
       with_running with_recent with_last].

Ltac state_fields_in H :=
  cbn [watcher shot_calls time_calls save_calls stdout emit hit_state set_watcher after_push
       tick_shot tick_clock _recent_screenshots _last_screenshot _running stable_frames
       with_running with_recent with_last] in H.

Lemma keep_last_all {A} (n : Z) (l : list A) :
  Z.of_nat (List.length l) <= n -> keep_last n l = l.
Proof.
  intros H. unfold keep_last.
  replace (List.length l - Z.to_nat n)%nat with 0%nat by lia. reflexivity.
Qed.

Lemma keep_last_app {A} (n : Z) (l m : list A) :
  keep_last n (keep_last n l ++ m) = keep_last n (l ++ m).
Proof.
  unfold keep_last. rewrite !length_app, length_skipn, !skipn_app, skipn_skipn, length_skipn.
  f_equal; f_equal; lia.
Qed.

Lemma pushed_keep_last (sf : Z) (recent : list frame) (x : frame) :
  Z.of_nat (List.length recent) <= sf ->
  pushed sf recent x = keep_last sf (recent ++ [x]).
Proof.
  intros Hlen. unfold pushed, keep_last. rewrite length_app. cbn [List.length].
  destruct (sf <? Z.of_nat (List.length recent + 1)) eqn:Hfull.
  - apply Z.ltb_lt in Hfull.
    replace (List.length recent + 1 - Z.to_nat sf)%nat with 1%nat by lia.
    reflexivity.
  - apply Z.ltb_ge in Hfull.
    replace (List.length recent + 1 - Z.to_nat sf)%nat with 0%nat by lia.
    reflexivity.
Qed.

Lemma keep_last_bounded {A} (n : Z) (l : list A) :
  0 <= n -> Z.of_nat (List.length (keep_last n l)) <= n.
Proof. intros Hn. rewrite length_keep_last by exact Hn. lia. Qed.

Lemma same_config_refl w : same_config w w.
Proof. repeat split. Qed.

Lemma same_config_trans w1 w2 w3 :
  same_config w1 w2 -> same_config w2 w3 -> same_config w1 w3.
Proof.
  unfold same_config. intros (?&?&?&?&?) (?&?&?&?&?). repeat split; congruence.
Qed.

(** The loop changes no setting and only adds capture calls. *)
Lemma loop_run_config E assertions (start_time timeout : Q) s r s' :
  loop_run E assertions start_time timeout s r s' ->
  same_config (watcher s) (watcher s') /\ (shot_calls s <= shot_calls s')%nat.
Proof.
  intros Hrun.
  induction Hrun as [s Hc|s e Hc Hshot|s x msg s3 Hc Hshot Hchk
                    |s x s3 Hc Hshot Hchk Hp|s x s3 r s' Hc Hshot Hchk Hp Hrun IH].
  - destruct (_running (watcher s)); split; try (cbn; lia); repeat split.
  - split; [repeat split | cbn; lia].
  - apply check_assertions_state in Hchk. destruct Hchk as [found [out [[= <-] ->]]].
    split; [repeat split | cbn; lia].
  - apply check_assertions_state in Hchk. destruct Hchk as [found [out [[= <-] ->]]].
    split; [repeat split | cbn; lia].
  - apply check_assertions_state in Hchk. destruct Hchk as [found [out [[= <-] ->]]].
    destruct IH as [Hcfg Hle]. split; [exact Hcfg | cbn in Hle; lia].
Qed.

Lemma captured_ok E (from n : nat) (x : frame) :
  screenshot_func E from = Ok x -> captured E from (S n) = x :: captured E (S from) n.
Proof. intros H. unfold captured. cbn. now rewrite H. Qed.

Lemma captured_err E (from n : nat) (e : exn) :
  screenshot_func E from = Err e -> captured E from (S n) = captured E (S from) n.
Proof. intros H. unfold captured. cbn. now rewrite H. Qed.

(** The window after the loop: what it held, then every captured frame, cut
    to the last [stable_frames]. *)
Lemma loop_run_window E assertions (start_time timeout : Q) s r s' :
  loop_run E assertions start_time timeout s r s' ->
  0 <= stable_frames (watcher s) -> window_bounded s ->
  window_follows E s s'.
Proof.
  intros Hrun.
  induction Hrun as [s Hc|s e Hc Hshot|s x msg s3 Hc Hshot Hchk
                    |s x s3 Hc Hshot Hchk Hp|s x s3 r s' Hc Hshot Hchk Hp Hrun IH];
    intros Hsf Hb; unfold window_follows, window_bounded in *.
  - replace (shot_calls _ - shot_calls s)%nat with 0%nat
      by (destruct (_running (watcher s)); cbn; lia).
    cbn [captured seq flat_map]. rewrite app_nil_r, keep_last_all by exact Hb.
    now destruct (_running (watcher s)).
  - cbn [tick_shot tick_clock shot_calls watcher].
    replace (S (shot_calls s) - shot_calls s)%nat with 1%nat by lia.
    rewrite (captured_err E _ 0 e Hshot). cbn [captured seq flat_map].
    now rewrite app_nil_r, keep_last_all by exact Hb.
  - apply check_assertions_state in Hchk. destruct Hchk as [found [out [[= <-] ->]]].
    state_fields. replace (S (shot_calls s) - shot_calls s)%nat with 1%nat by lia.
    rewrite (captured_ok E _ 0 x Hshot). cbn [captured seq flat_map].
    now apply pushed_keep_last.
  - apply check_assertions_state in Hchk. destruct Hchk as [found [out [[= <-] ->]]].
    state_fields. replace (S (shot_calls s) - shot_calls s)%nat with 1%nat by lia.
    rewrite (captured_ok E _ 0 x Hshot). cbn [captured seq flat_map].
    now apply pushed_keep_last.
  - pose proof (loop_run_config _ _ _ _ _ _ _ Hrun) as [_ Hle].
    apply check_assertions_state in Hchk. destruct Hchk as [found [out [[= <-] ->]]].
    state_fields_in IH. state_fields_in Hle.
    rewrite (pushed_keep_last _ _ x Hb) in IH.
    rewrite IH; [|exact Hsf|now apply keep_last_bounded].
    replace (shot_calls s' - shot_calls s)%nat with (S (shot_calls s' - S (shot_calls s))) by lia.
    rewrite (captured_ok E _ _ x Hshot).
    rewrite keep_last_app, <- app_assoc. reflexivity.
Qed.

(** A hit is the [for] loop returning a message on some tick. *)
Lemma loop_run_hit E assertions (start_time timeout : Q) s m s' :
  loop_run E assertions start_time timeout s (Ok (true, m)) s' ->
  exists s0 x msg,
    m = Some msg /\ same_config (watcher s) (watcher s0) /\
    check_assertions E assertions x s0 = Some (Ok (Some msg), s').
Proof.
  intros Hrun. remember (Ok (true, m)) as r eqn:Hr.
  induction Hrun as [s Hc|s e Hc Hshot|s x msg s3 Hc Hshot Hchk
                    |s x s3 Hc Hshot Hchk Hp|s x s3 r s' Hc Hshot Hchk Hp Hrun IH];
    try discriminate.
  - injection Hr as <-. exists (after_push x s), x, msg.
    repeat split. exact Hchk.
  - apply check_assertions_state in Hchk. destruct Hchk as [found [out [[= <-] ->]]].
    destruct (IH Hr) as [s0 [x0 [msg [Hm [Hcfg Hchk0]]]]].
    exists s0, x0, msg. split; [exact Hm|]. split; [exact Hcfg | exact Hchk0].
Qed.

(** ** The loop ends when the clock passes the deadline *)

Lemma watch_loop_terminates E assertions (start_time timeout : Q) :
  forall k s,
    Qltb (time_time E (time_calls s + k) - start_time) timeout = false ->
    forall fuel, (k < fuel)%nat ->
    exists r s', watch_loop E fuel assertions start_time timeout s = Some (r, s').
Proof.
  induction k as [|k IH]; intros s Hdead [|fuel] Hfuel; try lia;
    rewrite watch_loop_step.
  - rewrite Nat.add_0_r in Hdead. rewrite Hdead, andb_false_r. eauto.
  - destruct (_running (watcher s) && Qltb (time_time E (time_calls s) - start_time) timeout);
      [|eauto].
    destruct (screenshot_func E (shot_calls s)) as [x|e]; [|eauto].
    cbn zeta. fold (after_push x s).
    destruct (check_assertions_emits E (watcher (after_push x s)) assertions x)
      as [found [out Hchk]].
    rewrite (Hchk _ eq_refl).
    destruct found as [msg|]; [eauto|].
    destruct (Qltb _ 0); [eauto|].
    apply IH; [|lia].
    cbn [time_calls set_watcher emit hit_state after_push tick_shot tick_clock].
    now replace (S (time_calls s) + k)%nat with (time_calls s + S k)%nat by lia.
Qed.

(** ** What the agent thread stored is invisible to the watcher *)

Lemma blind_ret {A} (a : A) : blind (ret a).
Proof. intros r e s. reflexivity. Qed.

Lemma blind_raise {A} (e : exn) : blind (@raise A e).
Proof. intros r e' s. reflexivity. Qed.

Lemma blind_lift_res {A} (x : res A) : blind (lift_res x).
Proof. destruct x; [apply blind_ret | apply blind_raise]. Qed.

Lemma blind_bind {A B} (c : M A) (k : A -> M B) :
  blind c -> (forall a, blind (k a)) -> blind (bind c k).
Proof.
  intros Hc Hk r e s. unfold bind. rewrite Hc.
  destruct (c s) as [[[a|e'] s']|]; [apply Hk | reflexivity | reflexivity].
Qed.

Lemma blind_try_except {A} (c : M A) (h : exn -> M A) :
  blind c -> (forall e, blind (h e)) -> blind (try_except c h).
Proof.
  intros Hc Hh r e s. unfold try_except. rewrite Hc.
  destruct (c s) as [[[a|e'] s']|]; [reflexivity | | reflexivity].
  destruct (is_Exception e'); [apply Hh | reflexivity].
Qed.

Lemma blind_get_self : blind get_self.
Proof. intros r e s. reflexivity. Qed.

Lemma blind_update_self f : blind (update_self f).
Proof. intros r e s. reflexivity. Qed.

Lemma blind_print ev : blind (print ev).
Proof. intros r e s. reflexivity. Qed.

Lemma blind_time_now E : blind (time_now E).
Proof. intros r e s. reflexivity. Qed.

Lemma blind_time_sleep q : blind (time_sleep q).
Proof. unfold time_sleep. destruct (Qltb q 0); [apply blind_raise | apply blind_ret]. Qed.

Lemma blind_call_screenshot_func E : blind (call_screenshot_func E).
Proof. intros r e s. reflexivity. Qed.

Lemma blind_call_save f : blind (call_save_screenshot_func f).
Proof. intros r e s. reflexivity. Qed.

Create HintDb blind.
#[local] Hint Resolve blind_ret blind_raise blind_lift_res blind_get_self blind_update_self
  blind_print blind_time_now blind_time_sleep blind_call_screenshot_func blind_call_save : blind.

Ltac blind_step :=
  match goal with
  | |- blind (bind _ _) => apply blind_bind; [|intros]
  | |- blind (try_except _ _) => apply blind_try_except; [|intros]
  | |- blind (if ?b then _ else _) => destruct b
  | |- blind (match ?x with _ => _ end) => destruct x
  | |- blind _ => solve [auto with blind]
  end.

Lemma blind_calculate_diff L a b : blind (calculate_diff L a b).
Proof. unfold calculate_diff. repeat blind_step. Qed.
#[local] Hint Resolve blind_calculate_diff : blind.

Lemma blind_has_changed L self a b : blind (has_changed L self a b).
Proof. unfold has_changed. repeat blind_step. Qed.
#[local] Hint Resolve blind_has_changed : blind.

Lemma blind_is_stable_loop L recent thr indices : blind (is_stable_loop L recent thr indices).
Proof. induction indices; cbn [is_stable_loop]; repeat blind_step. Qed.
#[local] Hint Resolve blind_is_stable_loop : blind.

Lemma blind_is_stable L recent sf thr : blind (is_stable L recent sf thr).
Proof. unfold is_stable. repeat blind_step. Qed.
#[local] Hint Resolve blind_is_stable : blind.

Lemma blind_is_screen_stable E : blind (_is_screen_stable E).
Proof. unfold _is_screen_stable. repeat blind_step. Qed.
#[local] Hint Resolve blind_is_screen_stable : blind.

Lemma blind_check_assertion E a x : blind (check_assertion E a x).
Proof. unfold check_assertion. repeat blind_step. Qed.
#[local] Hint Resolve blind_check_assertion : blind.

Lemma blind_check_assertions E l x : blind (check_assertions E l x).
Proof. induction l; cbn [check_assertions]; repeat blind_step. Qed.
#[local] Hint Resolve blind_check_assertions : blind.

Lemma blind_push_frame x : blind (push_frame x).
Proof. unfold push_frame, pop_first. repeat blind_step. Qed.
#[local] Hint Resolve blind_push_frame : blind.

Lemma blind_loop_condition E st t : blind (loop_condition E st t).
Proof. unfold loop_condition. repeat blind_step. Qed.
#[local] Hint Resolve blind_loop_condition : blind.

Lemma blind_watch_loop E fuel l st t : blind (watch_loop E fuel l st t).
Proof.
  induction fuel; cbn [watch_loop]; [intros r e s; reflexivity|].
  repeat blind_step.
Qed.
#[local] Hint Resolve blind_watch_loop : blind.

Lemma blind_watch E fuel l t : blind (watch E fuel l t).
Proof. unfold watch. repeat blind_step. Qed.

Lemma blind_stop_agent : blind _stop_agent.
Proof. unfold _stop_agent, stop. repeat blind_step. Qed.

Lemma blind_failure_screenshot E : blind (failure_screenshot E).
Proof. unfold failure_screenshot. repeat blind_step. Qed.

(** ** Substrings *)

Lemma prefix_iff (t s : string) :
  String.prefix t s = true <-> exists post, s = (t ++ post)%string.
Proof.
  revert s. induction t as [|c t IH]; intros s.
  - destruct s; cbn; (split; [intros _; eexists; reflexivity | reflexivity]).
  - destruct s as [|d s]; cbn; [split; [discriminate | intros [post H]; discriminate]|].
    destruct (Ascii.ascii_dec c d) as [->|Hcd].
    + rewrite IH. split; intros [post H]; exists post; [now rewrite H | now injection H].
    + split; [discriminate | intros [post H]; injection H; congruence].
Qed.

Lemma py_in_iff (t s : string) :
  py_in t s = true <-> exists pre post, s = (pre ++ t ++ post)%string.
Proof.
  induction s as [|c s IH]; cbn [py_in]; rewrite orb_true_iff, prefix_iff.
  - split.
    + intros [[post H]|H]; [now exists "", post | discriminate].
    + intros [[|d pre] [post H]]; [left; now exists post | discriminate].
  - rewrite IH. split.
    + intros [[post H]|[pre [post H]]]; [now exists "", post|].
      exists (String c pre), post. cbn. now rewrite H.
    + intros [[|d pre] [post H]]; [left; now exists post|].
      right. exists pre, post. cbn in H. now injection H.
Qed.

(** ** The claims on the stability detector and the evaluator *)

(** C3.  [is_stable] always returns; it returns true exactly when the window
    holds at least [stable_frames] frames and every consecutive pair among
    the trailing [stable_frames] frames scores at most [stable_threshold]
    (so a window shorter than [stable_frames] gives false, and so does one
    pair above the threshold).  [_is_screen_stable] is [is_stable] on the
    watcher's window. *)
Theorem is_stable_iff_trailing_pairs (L : ImageLib) (recent : list frame)
    (frames : Z) (thr : Q) :
  (exists b out,
     (forall s, is_stable L recent frames thr s = Some (Ok b, emit out s)) /\
     (b = true <->
      frames <= Z.of_nat (List.length recent) /\
      pairs_within L thr (keep_last frames recent))) /\
  (forall E s,
     _is_screen_stable E s =
     is_stable (lib E) (_recent_screenshots (watcher s)) (stable_frames (watcher s))
               (stable_threshold (watcher s)) s).
Proof.
  split; [|intros E s; apply is_screen_stable_unfold].
  destruct (Z_lt_le_dec (Z.of_nat (List.length recent)) frames) as [Hshort|Hlong].
  - exists false, []. split.
    + intros s. rewrite emit_nil. now apply is_stable_short.
    + split; [discriminate | intros [H _]; lia].
  - destruct (is_stable_long L recent frames thr Hlong) as [b [out [Hrun Hb]]].
    exists b, out. split; [exact Hrun|]. rewrite Hb. tauto.
Qed.


(** [calculate_diff] returns on every pair of inputs. *)
Lemma calculate_diff_returns (L : ImageLib) (a b : frame) (s : St) :
  exists d s', calculate_diff L a b s = Some (Ok d, s').
Proof. rewrite (emits_calculate_diff (watcher s) L a b s eq_refl). eauto. Qed.

(** A decode failure of either image makes the [try] block raise. *)
Lemma decode_failure_raises (L : ImageLib) (a b : frame) (e : exn) :
  b64decode L a = Err e \/ (exists d, b64decode L a = Ok d /\ b64decode L b = Err e) ->
  diff_ratio L a b = Err e.
Proof.
  unfold diff_ratio. intros [Ha|[d [Ha Hb]]]; rewrite Ha; cbn; [reflexivity|].
  now rewrite Hb.
Qed.

(** C6.  [not_contains_text] is the negation of [contains_text] on every
    frame and value, and [contains_text] says whether the value is a
    substring of an extracted line; an empty OCR result satisfies
    [text_not_exists].  In [check_assertion], on a stable window, the
    verdict of [text_not_exists v] is the negation of that of
    [text_exists v]. *)
Theorem text_not_exists_negates_text_exists (self : OCREngine) (image : frame) (v : string) :
  not_contains_text self image v = negb (contains_text self image v) /\
  (contains_text self image v = true <->
   exists line, In line (extract_text self image) /\
                exists pre post, line = (pre ++ v ++ post)%string) /\
  (extract_text self image = [] -> not_contains_text self image v = true) /\
  (forall E s t1 t2,
     ocr_engine (watcher s) = self ->
     (exists s1, _is_screen_stable E s = Some (Ok true, s1)) ->
     exists b s1 s2,
       check_assertion E {| type := "text_exists"; value := v; timeout := t1 |} image s
         = Some (Ok b, s1) /\
       check_assertion E {| type := "text_not_exists"; value := v; timeout := t2 |} image s
         = Some (Ok (negb b), s2)).
Proof.
  split; [reflexivity|]. split; [|split].
  - unfold contains_text. rewrite existsb_exists.
    split; intros [line [Hin H]]; exists line; (split; [exact Hin|]); now apply py_in_iff.
  - intros Hempty. unfold not_contains_text, contains_text. now rewrite Hempty.
  - intros E s t1 t2 Hocr [s1 Hst].
    destruct (emits_of_run (watcher s) _ s s1 true (is_screen_stable_emits E (watcher s))
                eq_refl Hst) as [out [Hem _]].
    destruct (check_assertion_stable E (watcher s) out
                {| type := "text_exists"; value := v; timeout := t1 |} image Hem)
      as [b1 [o1 [H1 Hb1]]].
    destruct (check_assertion_stable E (watcher s) out
                {| type := "text_not_exists"; value := v; timeout := t2 |} image Hem)
      as [b2 [o2 [H2 Hb2]]].
    cbn in Hb1, Hb2. rewrite Hocr in Hb1, Hb2.
    exists b1, (emit (out ++ o1) s), (emit (out ++ o2) s).
    split; [now apply H1|]. rewrite (H2 s eq_refl). subst b1 b2. reflexivity.
Qed.

(** ** The claims on the loop *)

Lemma check_assertion_run_emits E s a x b s1 :
  check_assertion E a x s = Some (Ok b, s1) ->
  exists out, emits (watcher s) (check_assertion E a x) b out.
Proof.
  intros Hrun.
  destruct (emits_of_run (watcher s) _ s s1 b (check_assertion_emits E (watcher s) a x)
              eq_refl Hrun) as [out [H _]].
  now exists out.
Qed.

(** Among assertions of which one evaluates true there is a first one. *)
Lemma first_true_exists E w x (assertions : list Assertion) (a : Assertion) :
  In a assertions -> (exists out, emits w (check_assertion E a x) true out) ->
  exists pre first post,
    assertions = pre ++ first :: post /\
    (forall y, In y pre -> exists out, emits w (check_assertion E y x) false out) /\
    (exists out, emits w (check_assertion E first x) true out).
Proof.
  induction assertions as [|y rest IH]; intros Hin Ha; [destruct Hin|].
  destruct (check_assertion_emits E w y x) as [[|] [out Hy]].
  - exists [], y, rest. split; [reflexivity|]. split; [intros ? []|now exists out].
  - destruct Hin as [->|Hin].
    + destruct Ha as [out' Ha]. pose proof (emits_fun _ _ _ _ _ _ Hy Ha). discriminate.
    + destruct (IH Hin Ha) as [pre [first [post [-> [Hpre Hfirst]]]]].
      exists (y :: pre), first, post. split; [reflexivity|]. split; [|exact Hfirst].
      intros z [<-|Hz]; [now exists out | now apply Hpre].
Qed.

(** C5.  On a tick (the loop condition holds, [x] is captured and pushed)
    where some assertion evaluates true, the assertions split as
    [pre ++ first :: post] with everything in [pre] false and [first] true;
    the [for] loop and [watch_loop] report [first] and reach the same state
    whatever follows it, so the rest is not evaluated.  In particular for
    [[A; B]] with [A] true the reported match is [A]. *)
Theorem first_match_in_declared_order E (assertions : list Assertion) (start_time timeout : Q)
    (s0 : St) (x : frame) (a : Assertion) :
  continues E start_time timeout s0 = true ->
  screenshot_func E (shot_calls s0) = Ok x ->
  In a assertions ->
  (exists s1, check_assertion E a x (after_push x s0) = Some (Ok true, s1)) ->
  (exists pre first post s',
     assertions = pre ++ first :: post /\
     (forall y, In y pre ->
        exists s1, check_assertion E y x (after_push x s0) = Some (Ok false, s1)) /\
     (exists s1, check_assertion E first x (after_push x s0) = Some (Ok true, s1)) /\
     (forall post',
        check_assertions E (pre ++ first :: post') x (after_push x s0)
          = Some (Ok (Some (hit_message first)), s') /\
        forall fuel,
          watch_loop E (S fuel) (pre ++ first :: post') start_time timeout s0
            = Some (Ok (true, Some (hit_message first)), s'))) /\
  (forall B, assertions = [a; B] ->
     exists s', check_assertions E [a; B] x (after_push x s0)
                  = Some (Ok (Some (hit_message a)), s')).
Proof.
  intros Hc Hshot Hin [s1 Ha].
  set (s := after_push x s0) in *.
  apply check_assertion_run_emits in Ha.
  split.
  - destruct (first_true_exists E (watcher s) x assertions a Hin Ha)
      as [pre [first [post [Heq [Hpre Hfirst]]]]].
    destruct (check_assertions_first E (watcher s) pre first x Hpre Hfirst) as [out Hout].
    exists pre, first, post, (emit out (set_watcher (with_running false (watcher s)) s)).
    split; [exact Heq|]. split; [|split].
    + intros y Hy. destruct (Hpre y Hy) as [oy Hy']. exists (emit oy s). now apply Hy'.
    + destruct Hfirst as [o1 Hf]. exists (emit o1 s). now apply Hf.
    + intros post'. split; [now apply Hout|].
      intros fuel. rewrite watch_loop_step. fold (continues E start_time timeout s0).
      rewrite Hc, Hshot. cbn zeta. fold (after_push x s0). fold s.
      now rewrite (Hout post' s eq_refl).
  - intros B ->.
    destruct (check_assertions_first E (watcher s) [] a x) as [out Hout];
      [intros ? [] | exact Ha |].
    eexists. now apply (Hout [B]).
Qed.

Lemma emit_inj (o1 o2 : list event) (s : St) : emit o1 s = emit o2 s -> o1 = o2.
Proof.
  unfold emit. intros H. injection H as H. now apply app_inv_head in H.
Qed.

Lemma is_stable_uniform L (recent : list frame) (sf : Z) (thr : Q) :
  exists b out, forall s, is_stable L recent sf thr s = Some (Ok b, emit out s).
Proof.
  destruct (Z_lt_le_dec (Z.of_nat (List.length recent)) sf) as [Hshort|Hlong].
  - exists false, []. intros s. rewrite emit_nil. now apply is_stable_short.
  - destruct (is_stable_long L recent sf thr Hlong) as [b [out [H _]]]. now exists b, out.
Qed.

(** The verdict of the stability detector depends on the window and the two
    stability settings only. *)
Lemma is_screen_stable_window E w w' b out :
  _recent_screenshots w' = _recent_screenshots w ->
  stable_frames w' = stable_frames w ->
  stable_threshold w' = stable_threshold w ->
  emits w (_is_screen_stable E) b out -> emits w' (_is_screen_stable E) b out.
Proof.
  intros Hr Hf Ht H s Hs.
  specialize (H (state_of w) eq_refl). rewrite is_screen_stable_unfold in *.
  subst w'. rewrite Hr, Hf, Ht. cbn [watcher state_of] in H.
  destruct (is_stable_uniform (lib E) (_recent_screenshots w) (stable_frames w)
              (stable_threshold w)) as [b' [out' Hu]].
  rewrite Hu in H. injection H as -> Hout. subst out'.
  apply Hu.
Qed.

Lemma check_assertions_some_stable E w assertions x :
  (exists msg out s s', watcher s = w /\
     check_assertions E assertions x s = Some (Ok (Some msg), s') /\ s' = emit out (hit_state (Some msg) s)) ->
  exists out, emits w (_is_screen_stable E) true out.
Proof.
  intros [msg [out [s [s' [Hs [Hrun _]]]]]].
  destruct (is_screen_stable_emits E w) as [[|] [o Hst]]; [now exists o|].
  destruct (check_assertions_none E w assertions x) as [o' Hnone].
  { intros y _. exists o. now apply check_assertion_unstable. }
  rewrite (Hnone s Hs) in Hrun. discriminate.
Qed.

(** C7.  While the window is not full the stability detector says unstable;
    whenever it says unstable every assertion, of any kind, evaluates false
    and the [for] loop of the tick finds nothing; and when [watch] returns a
    hit, the window it returns with is one the detector calls stable. *)
Theorem unstable_window_never_hits E :
  (forall s,
     Z.of_nat (List.length (_recent_screenshots (watcher s))) < stable_frames (watcher s) ->
     _is_screen_stable E s = Some (Ok false, s)) /\
  (forall s s1,
     _is_screen_stable E s = Some (Ok false, s1) ->
     (forall a x, exists out, check_assertion E a x s = Some (Ok false, emit out s)) /\
     (forall assertions x, exists out,
        check_assertions E assertions x s = Some (Ok None, emit out s))) /\
  (forall fuel assertions timeout s m s',
     watch E fuel assertions timeout s = Some (Ok (true, m), s') ->
     exists out, _is_screen_stable E s' = Some (Ok true, emit out s')).
Proof.
  split; [|split].
  - intros s Hshort. rewrite is_screen_stable_unfold. now apply is_stable_short.
  - intros s s1 Hst.
    destruct (emits_of_run (watcher s) _ s s1 false (is_screen_stable_emits E (watcher s))
                eq_refl Hst) as [out [Hem _]].
    assert (Hall : forall a x, emits (watcher s) (check_assertion E a x) false out)
      by (intros a x; now apply check_assertion_unstable).
    split.
    + intros a x. exists out. now apply Hall.
    + intros assertions x.
      destruct (check_assertions_none E (watcher s) assertions x) as [o Ho];
        [intros y _; exists out; apply Hall|].
      exists o. now apply Ho.
  - intros fuel assertions timeout s m s' Hrun.
    rewrite watch_unfold in Hrun. apply watch_loop_sound, loop_run_hit in Hrun.
    destruct Hrun as [s0 [x [msg [-> [_ Hchk]]]]].
    pose proof Hchk as Hstate. apply check_assertions_state in Hstate.
    destruct Hstate as [found [out [[= <-] ->]]].
    destruct (check_assertions_some_stable E (watcher s0) assertions x) as [o Hst].
    { exists msg, out, s0, (emit out (hit_state (Some msg) s0)). auto. }
    exists o.
    refine (is_screen_stable_window E (watcher s0) _ true o _ _ _ Hst _ eq_refl); reflexivity.
Qed.

(** C8.  A freshly constructed watcher with a non-negative [stable_frames]
    has a window within capacity.  With a window within capacity, one push
    (lines 114-116 of [watch]) leaves the last [stable_frames] frames of the
    window followed by the new frame: the length stays within capacity, and
    a full window loses its first, oldest frame.  Hence after any run of
    [watch] the window is within capacity and holds, oldest first, the last
    [stable_frames] of the frames it held followed by the captured ones. *)
Theorem window_bounded_fifo E :
  (forall ocr checker poll frames thr,
     0 <= frames ->
     window_bounded (state_of (AssertionWatcher_init ocr checker poll frames thr))) /\
  (forall x s,
     0 <= stable_frames (watcher s) -> window_bounded s ->
     exists s2,
       push_frame x s = Some (Ok tt, s2) /\ window_bounded s2 /\
       _recent_screenshots (watcher s2) =
         keep_last (stable_frames (watcher s)) (_recent_screenshots (watcher s) ++ [x]) /\
       (Z.of_nat (List.length (_recent_screenshots (watcher s))) = stable_frames (watcher s) ->
        _recent_screenshots (watcher s2) = tl (_recent_screenshots (watcher s) ++ [x]))) /\
  (forall fuel assertions timeout s r s',
     watch E fuel assertions timeout s = Some (r, s') ->
     0 <= stable_frames (watcher s) -> window_bounded s ->
     window_bounded s' /\ window_follows E s s').
Proof.
  split; [intros ocr checker poll frames thr Hsf; exact Hsf|]. split.
  - intros x s Hsf Hb. eexists. split; [apply push_frame_run|].
    unfold window_bounded in *. state_fields.
    rewrite (pushed_keep_last _ _ x Hb). split; [|split].
    + now apply keep_last_bounded.
    + reflexivity.
    + intros Hfull. rewrite <- (pushed_keep_last _ _ x Hb). unfold pushed.
      rewrite length_app. cbn [List.length].
      replace (stable_frames (watcher s) <? _) with true; [reflexivity|].
      symmetry. apply Z.ltb_lt. lia.
  - intros fuel assertions timeout s r s' Hrun Hsf Hb.
    rewrite watch_unfold in Hrun. apply watch_loop_sound in Hrun.
    pose proof (loop_run_config _ _ _ _ _ _ _ Hrun) as [(_&_&_&Hsame&_) _].
    apply loop_run_window in Hrun; [|exact Hsf|exact Hb].
    unfold window_follows, window_bounded in *.
    cbn [loop_entry watcher shot_calls emit tick_clock set_watcher with_running
         _recent_screenshots stable_frames] in Hrun, Hsame.
    split; [|exact Hrun].
    rewrite Hrun, Hsame. now apply keep_last_bounded.
Qed.

(** ** The default OCR engine *)

Lemma text_exists_default_false E w v t x :
  ocr_engine w = OCREngine_default ->
  exists out, emits w (check_assertion E {| type := "text_exists"; value := v; timeout := t |} x)
                    false out.
Proof.
  intros Hocr.
  destruct (is_screen_stable_emits E w) as [[|] [out Hst]].
  - destruct (check_assertion_stable E w out
                {| type := "text_exists"; value := v; timeout := t |} x Hst) as [b [o [H Hb]]].
    cbn in Hb. rewrite Hocr in Hb. cbn in Hb. subst b. now exists (out ++ o).
  - exists out. now apply check_assertion_unstable.
Qed.

Lemma text_not_exists_default E s v t x :
  ocr_engine (watcher s) = OCREngine_default ->
  check_assertion E {| type := "text_not_exists"; value := v; timeout := t |} x s
  = _is_screen_stable E s.
Proof.
  intros Hocr.
  destruct (is_screen_stable_emits E (watcher s)) as [b [out Hst]].
  unfold check_assertion, bind. rewrite (Hst s eq_refl).
  destruct b; cbn; [|reflexivity].
  unfold get_self, ret. cbn. rewrite Hocr. reflexivity.
Qed.

(** C10.  [AssertionWatcher] constructed without an engine uses
    [OCREngine()], whose [extract_text] returns the empty list for every
    image: [contains_text] is false and [not_contains_text] true for every
    image and target.  With that engine a [text_exists] assertion always
    evaluates false, so a watch of [text_exists] assertions never returns a
    hit; a [text_not_exists] assertion evaluates to the verdict of the
    stability detector, so the first tick with a stable window is a hit. *)
Theorem default_ocr_engine_sees_no_text E :
  (forall checker poll frames thr,
     ocr_engine (AssertionWatcher_init None checker poll frames thr) = OCREngine_default) /\
  (forall image v,
     extract_text OCREngine_default image = [] /\
     contains_text OCREngine_default image v = false /\
     not_contains_text OCREngine_default image v = true) /\
  (forall s,
     ocr_engine (watcher s) = OCREngine_default ->
     (forall v t x, exists out,
        check_assertion E {| type := "text_exists"; value := v; timeout := t |} x s
          = Some (Ok false, emit out s)) /\
     (forall v t x,
        check_assertion E {| type := "text_not_exists"; value := v; timeout := t |} x s
          = _is_screen_stable E s) /\
     (forall fuel assertions timeout r s',
        (forall a, In a assertions -> type a = "text_exists") ->
        watch E fuel assertions timeout s = Some (r, s') ->
        forall m, r <> Ok (true, m)) /\
     (forall assertions start_time timeout x v t s1 fuel,
        continues E start_time timeout s = true ->
        screenshot_func E (shot_calls s) = Ok x ->
        In {| type := "text_not_exists"; value := v; timeout := t |} assertions ->
        _is_screen_stable E (after_push x s) = Some (Ok true, s1) ->
        exists msg s',
          watch_loop E (S fuel) assertions start_time timeout s
            = Some (Ok (true, Some msg), s') /\
          (assertions = [{| type := "text_not_exists"; value := v; timeout := t |}] ->
           msg = hit_message {| type := "text_not_exists"; value := v; timeout := t |}))).
Proof.
  split; [reflexivity|]. split; [intros; repeat split|].
  intros s Hocr. split; [|split; [|split]].
  - intros v t x. destruct (text_exists_default_false E (watcher s) v t x Hocr) as [out H].
    exists out. now apply H.
  - intros v t x. now apply text_not_exists_default.
  - intros fuel assertions timeout r s' Hall Hrun m ->.
    rewrite watch_unfold in Hrun. apply watch_loop_sound, loop_run_hit in Hrun.
    destruct Hrun as [s0 [x [msg [_ [(Hocr0&_) Hchk]]]]].
    cbn [loop_entry watcher emit tick_clock set_watcher with_running ocr_engine] in Hocr0.
    destruct (check_assertions_none E (watcher s0) assertions x) as [o Hnone].
    { intros [ty v t] Hy. specialize (Hall _ Hy). cbn in Hall. subst ty.
      apply text_exists_default_false. congruence. }
    rewrite (Hnone s0 eq_refl) in Hchk. discriminate.
  - intros assertions start_time timeout x v t s1 fuel Hc Hshot Hin Hst.
    set (tn := {| type := "text_not_exists"; value := v; timeout := t |}) in *.
    assert (Htn : exists out, emits (watcher (after_push x s)) (check_assertion E tn x) true out).
    { apply (check_assertion_run_emits E (after_push x s) tn x true s1).
      unfold tn. rewrite text_not_exists_default; [exact Hst | exact Hocr]. }
    destruct (first_true_exists E _ x assertions tn Hin Htn)
      as [pre [first [post [Heq [Hpre Hfirst]]]]].
    destruct (check_assertions_first E _ pre first x Hpre Hfirst) as [out Hout].
    exists (hit_message first). eexists. split.
    + rewrite watch_loop_step. fold (continues E start_time timeout s).
      rewrite Hc, Hshot. cbn zeta. fold (after_push x s).
      rewrite Heq, (Hout post _ eq_refl). reflexivity.
    + intros Hone. rewrite Hone in Heq.
      destruct pre as [|p [|q pre]]; cbn in Heq; [now injection Heq as <- | |];
        injection Heq as _ Heq; discriminate.
Qed.

(** ** A capture that raises *)

(** C1 (as the code has it).  On every tick on which the capture function
    raises, [watch] is left at once with that exception: nothing is printed,
    no further frame is captured, and the watcher (window, previous frame,
    [_running] still set) is as it was before the tick. *)
Theorem capture_exception_leaves_watch E fuel assertions (start_time timeout : Q) (s : St)
    (e : exn) :
  continues E start_time timeout s = true ->
  screenshot_func E (shot_calls s) = Err e ->
  exists s',
    watch_loop E (S fuel) assertions start_time timeout s = Some (Err e, s') /\
    watcher s' = watcher s /\ _running (watcher s') = true /\
    stdout s' = stdout s /\ shot_calls s' = S (shot_calls s).
Proof.
  intros Hc Hshot. exists (tick_shot (tick_clock s)).
  rewrite watch_loop_step. fold (continues E start_time timeout s). rewrite Hc, Hshot.
  repeat split. unfold continues in Hc. now apply andb_true_iff in Hc.
Qed.

(** ** State kept between two calls of [watch] *)

(** C2 (as the code has it).  The window and the previous frame are empty on
    a freshly constructed watcher only.  [watch] enters its loop with the
    window and the previous frame it was called with, and the first tick
    checks the assertions on that window with the new frame pushed and
    against that previous frame. *)
Theorem watch_keeps_window_and_previous_frame E fuel assertions (timeout : Q) (s : St) :
  (forall ocr checker poll frames thr,
     _recent_screenshots (AssertionWatcher_init ocr checker poll frames thr) = [] /\
     _last_screenshot (AssertionWatcher_init ocr checker poll frames thr) = None) /\
  (let entry := loop_entry timeout (List.length assertions) s in
   watch E fuel assertions timeout s
     = watch_loop E fuel assertions (time_time E (time_calls s)) timeout entry /\
   _recent_screenshots (watcher entry) = _recent_screenshots (watcher s) /\
   _last_screenshot (watcher entry) = _last_screenshot (watcher s) /\
   forall x found s3,
     continues E (time_time E (time_calls s)) timeout entry = true ->
     screenshot_func E (shot_calls s) = Ok x ->
     check_assertions E assertions x (after_push x entry) = Some (Ok (Some found), s3) ->
     watch E (S fuel) assertions timeout s = Some (Ok (true, Some found), s3) /\
     _recent_screenshots (watcher (after_push x entry))
       = pushed (stable_frames (watcher s)) (_recent_screenshots (watcher s)) x /\
     _last_screenshot (watcher (after_push x entry)) = _last_screenshot (watcher s)).
Proof.
  split; [intros; split; reflexivity|].
  cbn zeta. split; [apply watch_unfold|]. split; [reflexivity|]. split; [reflexivity|].
  intros x found s3 Hc Hshot Hchk. split; [|split; reflexivity].
  rewrite watch_unfold, watch_loop_step.
  fold (continues E (time_time E (time_calls s)) timeout
          (loop_entry timeout (List.length assertions) s)).
  rewrite Hc.
  change (shot_calls (loop_entry timeout (List.length assertions) s)) with (shot_calls s).
  rewrite Hshot. cbn zeta.
  fold (after_push x (loop_entry timeout (List.length assertions) s)).
  now rewrite Hchk.
Qed.

(** ** runner.py *)

Lemma to_assertions_well_formed (timeout : Q) (assertions : list AssertionDict) :
  well_formed assertions -> exists objs, to_assertions timeout assertions = Ok objs.
Proof.
  induction 1 as [|a rest [Ht Hv] _ [objs IH]]; [now exists []|].
  destruct a as [[ty|] [v|] tm]; cbn in Ht, Hv; try congruence.
  cbn. rewrite IH. cbn. eauto.
Qed.

Lemma blind_watch_and_report E fuel objs timeout start_time :
  blind (watch_and_report E fuel objs timeout start_time).
Proof.
  unfold watch_and_report.
  apply blind_try_except; [|intros e].
  - apply blind_bind; [apply blind_watch|intros r].
    apply blind_bind; [apply blind_stop_agent|intros _].
    apply blind_bind; [apply blind_time_now|intros now].
    destruct (fst r); [apply blind_ret|].
    apply blind_bind; [apply blind_failure_screenshot | intros; apply blind_ret].
  - apply blind_bind; [apply blind_stop_agent|intros _].
    apply blind_bind; [apply blind_time_now|intros now].
    apply blind_bind; [apply blind_failure_screenshot | intros; apply blind_ret].
Qed.

Lemma run_with_assertion_unfold E fuel prompt assertions (timeout : Q) (s : St) :
  run_with_assertion E fuel prompt assertions timeout s =
  match to_assertions timeout assertions with
  | Ok objs =>
      watch_and_report E fuel objs timeout (time_time E (time_calls s))
                       (run_entry E prompt objs s)
  | Err e => Some (Err e, tick_clock s)
  end.
Proof.
  unfold run_with_assertion, bind at 1, time_now. unfold bind at 1.
  destruct (to_assertions timeout assertions) as [objs|e]; [|reflexivity].
  cbn [lift_res ret]. unfold bind at 1. cbn [print].
  unfold bind at 1, _start_agent_async, bind at 1, run_agent, run_entry, agent_stored.
  destruct (agent_done E); [destruct (agent_run E prompt)|]; reflexivity.
Qed.

Lemma agent_stored_set_agent E prompt (s : St) :
  exists r e, agent_stored E prompt s = set_agent r e s.
Proof.
  unfold agent_stored.
  assert (Hsame : exists r e, s = set_agent r e s).
  { exists (_agent_result s), (_agent_error s). now destruct s. }
  destruct (agent_done E); [destruct (agent_run E prompt) as [a|e]|]; eauto.
  destruct (is_Exception e); eauto.
Qed.

(** What [watch_and_report] comes to from the state in which the runner calls
    it, whatever the agent thread stored. *)
Lemma watch_and_report_agent E E' fuel prompt objs (timeout start_time : Q) (s : St) r s' :
  watch_and_report E fuel objs timeout start_time (run_entry E prompt objs s)
    = Some (r, s') ->
  exists s'', watch_and_report E fuel objs timeout start_time (run_entry E' prompt objs s)
    = Some (r, s'').
Proof.
  unfold run_entry. intros Hrun.
  set (base := emit [PrintRunBanner prompt objs] (tick_clock s)) in *.
  destruct (agent_stored_set_agent E prompt base) as [a [e Hst]].
  destruct (agent_stored_set_agent E' prompt base) as [a' [e' Hst']].
  rewrite Hst in Hrun. rewrite Hst'.
  change (emit [PrintAgentStarted] (set_agent a e base))
    with (set_agent a e (emit [PrintAgentStarted] base)) in Hrun.
  change (emit [PrintAgentStarted] (set_agent a' e' base))
    with (set_agent a' e' (emit [PrintAgentStarted] base)).
  rewrite blind_watch_and_report in Hrun. rewrite blind_watch_and_report.
  destruct (watch_and_report E fuel objs timeout start_time (emit [PrintAgentStarted] base))
    as [[r0 s0]|]; [|discriminate].
  injection Hrun as -> _. eauto.
Qed.

Lemma to_assertion_present (timeout : Q) (a : AssertionDict) :
  key_type a <> None -> key_value a <> None ->
  to_assertion timeout a = Ok (assertion_of timeout a).
Proof.
  destruct a as [[ty|] [v|] tm]; cbn; intros H1 H2; try congruence. reflexivity.
Qed.

Lemma to_assertions_map (timeout : Q) (assertions : list AssertionDict) :
  well_formed assertions ->
  to_assertions timeout assertions = Ok (map (assertion_of timeout) assertions).
Proof.
  induction 1 as [|a rest [Ht Hv] _ IH]; [reflexivity|].
  cbn [to_assertions map]. rewrite (to_assertion_present timeout a Ht Hv), IH. reflexivity.
Qed.

Lemma to_assertions_ok_well_formed (timeout : Q) (assertions : list AssertionDict) objs :
  to_assertions timeout assertions = Ok objs -> well_formed assertions.
Proof.
  revert objs. induction assertions as [|a rest IH]; intros objs Hrun; [constructor|].
  cbn [to_assertions] in Hrun.
  destruct a as [[ty|] [v|] tm]; cbn in Hrun; try discriminate.
  destruct (to_assertions timeout rest) as [xs|e] eqn:Hrest; [|discriminate].
  constructor; [split; discriminate | now apply (IH xs)].
Qed.

Lemma watch_and_report_cases E fuel objs (timeout start_time : Q) (s1 : St) :
  watch_and_report E fuel objs timeout start_time s1 =
  match watch E fuel objs timeout s1 with
  | Some (wr, s2) => report_outcome E start_time wr s2
  | None => None
  end.
Proof.
  unfold watch_and_report, try_except, bind at 1.
  destruct (watch E fuel objs timeout s1) as [[[[[|] m]|e] s2]|]; [| | |reflexivity];
    unfold report_outcome, handler_outcome, _stop_agent, stop, update_self, print,
      time_now, failure_screenshot, call_save_screenshot_func, stopped, tick_save,
      tick_clock, bind, ret;
    cbn [fst snd];
    destruct (save_screenshot_func E) as [f|]; try reflexivity;
    repeat (cbn [watcher _agent_result _agent_error time_calls shot_calls save_calls stdout
                 emit set_watcher];
            match goal with
            | |- context [f ?n] => destruct (f n)
            end);
    reflexivity.
Qed.

Lemma run_entry_fields E prompt objs (s : St) :
  watcher (run_entry E prompt objs s) = watcher s /\
  save_calls (run_entry E prompt objs s) = save_calls s /\
  shot_calls (run_entry E prompt objs s) = shot_calls s /\
  time_calls (run_entry E prompt objs s) = S (time_calls s).
Proof.
  unfold run_entry, agent_stored.
  destruct (agent_done E); [destruct (agent_run E prompt) as [a|e]|];
    [| destruct (is_Exception e) |]; repeat split.
Qed.

(** [watch] does not call the failure-screenshot function. *)
Lemma watch_keeps_save_calls E fuel assertions (timeout : Q) (s : St) r s' :
  watch E fuel assertions timeout s = Some (r, s') -> save_calls s' = save_calls s.
Proof.
  intros Hrun. rewrite watch_unfold in Hrun. apply watch_loop_sound in Hrun.
  change (save_calls s) with (save_calls (loop_entry timeout (List.length assertions) s)).
  induction Hrun as [s0 Hc|s0 e Hc Hshot|s0 x msg s3 Hc Hshot Hchk
                    |s0 x s3 Hc Hshot Hchk Hp|s0 x s3 r s' Hc Hshot Hchk Hp Hrun IH].
  - now destruct (_running (watcher s0)).
  - reflexivity.
  - apply check_assertions_state in Hchk. destruct Hchk as [found [out [[= <-] ->]]].
    reflexivity.
  - apply check_assertions_state in Hchk. destruct Hchk as [found [out [[= <-] ->]]].
    reflexivity.
  - apply check_assertions_state in Hchk. destruct Hchk as [found [out [[= <-] ->]]].
    exact IH.
Qed.

(** What [run_with_assertion] does once the dicts are converted. *)
Lemma run_with_assertion_cases E fuel prompt assertions (timeout : Q) (s : St) objs :
  to_assertions timeout assertions = Ok objs ->
  run_with_assertion E fuel prompt assertions timeout s =
  match watch E fuel objs timeout (run_entry E prompt objs s) with
  | Some (wr, s2) => report_outcome E (time_time E (time_calls s)) wr s2
  | None => None
  end.
Proof.
  intros Hobjs. rewrite run_with_assertion_unfold, Hobjs. apply watch_and_report_cases.
Qed.

(** A conversion that fails raises the [KeyError] of a missing key. *)
Lemma to_assertions_err (timeout : Q) (assertions : list AssertionDict) :
  well_formed assertions \/
  exists key, to_assertions timeout assertions = Err (KeyError key).
Proof.
  induction assertions as [|a rest IH]; [left; constructor|].
  cbn [to_assertions].
  destruct a as [[ty|] [v|] tm]; cbn; [|right; eauto..].
  destruct IH as [Hwf|[key Herr]].
  - left. constructor; [split; discriminate | exact Hwf].
  - right. exists key. rewrite Herr. reflexivity.
Qed.


(** ** The statements at work on the concrete worlds *)

(** On the still screen, with the window just filled, both
    [text_not_exists] assertions hold; the first one declared is reported. *)
Lemma first_match_on_still_screen :
  exists s',
    check_assertions still_screen [text_not_exists_x; text_not_exists_y] "A"
                     (after_push "A" warm)
      = Some (Ok (Some (hit_message text_not_exists_x)), s').
Proof.
  apply (proj2 (first_match_in_declared_order still_screen
                  [text_not_exists_x; text_not_exists_y] 0 10 warm "A" text_not_exists_x
                  eq_refl eq_refl (or_introl eq_refl) (ex_intro _ _ eq_refl))
               text_not_exists_y eq_refl).
Defined.

(** An empty OCR result: ["x"] is reported absent, and on the stable window
    the two verdicts are opposite. *)
Lemma text_not_exists_on_still_screen :
  not_contains_text OCREngine_default "A" "x" = true /\
  exists b s1 s2,
    check_assertion still_screen text_exists_x "A" (after_push "A" warm) = Some (Ok b, s1) /\
    check_assertion still_screen text_not_exists_x "A" (after_push "A" warm)
      = Some (Ok (negb b), s2).
Proof.
  destruct (text_not_exists_negates_text_exists OCREngine_default "A" "x")
    as (_ & _ & Hempty & Hcheck).
  split; [apply Hempty; reflexivity|].
  apply (Hcheck still_screen (after_push "A" warm) 10%Q 10%Q eq_refl).
  eexists. reflexivity.
Defined.

(** A fresh watcher is unstable and evaluates nothing to true; the watch of
    the still screen hits on a window the detector calls stable. *)
Lemma unstable_then_stable_on_still_screen :
  _is_screen_stable still_screen AssertionRunner_init = Some (Ok false, AssertionRunner_init) /\
  (exists out, check_assertion still_screen text_not_exists_x "A" AssertionRunner_init
                 = Some (Ok false, emit out AssertionRunner_init)) /\
  exists m s',
    watch still_screen 10 [text_not_exists_x] 10 AssertionRunner_init
      = Some (Ok (true, m), s') /\
    exists out, _is_screen_stable still_screen s' = Some (Ok true, emit out s').
Proof.
  destruct (unstable_window_never_hits still_screen) as (Hshort & Hunstable & Hhit).
  split; [apply Hshort; cbn; lia|]. split.
  - apply (proj1 (Hunstable AssertionRunner_init AssertionRunner_init eq_refl)).
  - eexists. eexists. split; [vm_compute; reflexivity|].
    eapply (Hhit 10%nat [text_not_exists_x] 10%Q AssertionRunner_init).
    vm_compute. reflexivity.
Defined.

(** Four seconds of watching the still screen leave a window of three. *)
Lemma window_on_still_screen :
  window_bounded (state_of AssertionWatcher_new) /\
  (exists s2, push_frame "A" AssertionRunner_init = Some (Ok tt, s2) /\ window_bounded s2) /\
  exists r s',
    watch still_screen 10 [text_exists_x] 4 AssertionRunner_init = Some (r, s') /\
    window_bounded s' /\ window_follows still_screen AssertionRunner_init s'.
Proof.
  destruct (window_bounded_fifo still_screen) as (Hnew & Hpush & Hwatch).
  assert (Hsf : 0 <= stable_frames (watcher AssertionRunner_init)) by (cbn; lia).
  assert (Hb : window_bounded AssertionRunner_init) by (unfold window_bounded; cbn; lia).
  split; [apply Hnew; lia|]. split.
  - destruct (Hpush "A" AssertionRunner_init Hsf Hb) as [s2 [Hrun [Hb2 _]]].
    now exists s2.
  - eexists. eexists. split; [vm_compute; reflexivity|].
    eapply (Hwatch 10%nat [text_exists_x] 4%Q AssertionRunner_init);
      [vm_compute; reflexivity | exact Hsf | exact Hb].
Defined.


(** With the default engine the watch for ["x"] on the still screen ends
    without a hit, and the tick that fills the window hits
    [text_not_exists]. *)
Lemma default_engine_on_still_screen :
  (exists r s',
     watch still_screen 10 [text_exists_x] 4 AssertionRunner_init = Some (r, s') /\
     forall m, r <> Ok (true, m)) /\
  exists msg s',
    watch_loop still_screen 1 [text_not_exists_x] 0 10 warm = Some (Ok (true, Some msg), s') /\
    msg = hit_message text_not_exists_x.
Proof.
  destruct (default_ocr_engine_sees_no_text still_screen) as (_ & _ & Hdefault).
  split.
  - destruct (Hdefault AssertionRunner_init eq_refl) as (_ & _ & Hnever & _).
    eexists. eexists. split; [vm_compute; reflexivity|].
    eapply (Hnever 10%nat [text_exists_x] 4%Q);
      [intros a [<-|[]]; reflexivity | vm_compute; reflexivity].
  - destruct (Hdefault warm eq_refl) as (_ & _ & _ & Htick).
    destruct (Htick [text_not_exists_x] 0%Q 10%Q "A" "x" 10%Q _ 0%nat
                eq_refl eq_refl (or_introl eq_refl) eq_refl) as [msg [s' [Hrun Hmsg]]].
    exists msg, s'. split; [exact Hrun | now apply Hmsg].
Defined.

(** The first capture fails: the watch is over. *)
Lemma capture_exception_on_offline_first :
  exists s',
    watch_loop offline_first 5 [text_not_exists_x] 0 10
               (loop_entry 10 1 AssertionRunner_init) = Some (Err offline, s') /\
    watcher s' = watcher (loop_entry 10 1 AssertionRunner_init) /\
    _running (watcher s') = true /\
    stdout s' = stdout (loop_entry 10 1 AssertionRunner_init) /\
    shot_calls s' = 1%nat.
Proof.
  apply (capture_exception_leaves_watch offline_first 4 [text_not_exists_x] 0 10
           (loop_entry 10 1 AssertionRunner_init) offline eq_refl eq_refl).
Defined.

(** C1, counterexample.  The device fails the first capture only, and the
    watch has ten seconds; yet [watch] ends with the exception after that one
    capture, with nothing printed about it. *)
Lemma capture_exception_aborts_watch :
  screenshot_func offline_first 1 = Ok "A" /\
  (exists s',
     watch offline_first 5 [text_not_exists_x] 10 AssertionRunner_init = Some (Err offline, s') /\
     shot_calls s' = 1%nat /\ stdout s' = [PrintWatchStart 10 1]) /\
  ~ (exists v s',
       watch offline_first 5 [text_not_exists_x] 10 AssertionRunner_init = Some (Ok v, s')).
Proof.
  split; [reflexivity|]. split.
  - eexists. split; [vm_compute; reflexivity|]. split; reflexivity.
  - intros [v [s' H]]. vm_compute in H. discriminate.
Qed.

(** The second watch on the same watcher hits on its first tick. *)
Lemma second_watch_on_still_screen :
  exists found s3,
    watch still_screen 10 [text_not_exists_x] 4 after_first_watch
      = Some (Ok (true, Some found), s3) /\
    _recent_screenshots (watcher (after_push "A" (loop_entry 4 1 after_first_watch)))
      = pushed 3 ["A"; "A"; "A"] "A" /\
    _last_screenshot (watcher (after_push "A" (loop_entry 4 1 after_first_watch))) = Some "A".
Proof.
  destruct (watch_keeps_window_and_previous_frame still_screen 9 [text_not_exists_x] 4
              after_first_watch) as (_ & _ & _ & _ & Htick).
  eexists. eexists.
  eapply (Htick "A"); [reflexivity | reflexivity | vm_compute; reflexivity].
Defined.

(** C2, counterexample.  After a first watch the window holds three frames
    and the previous frame is set; a second watch on the same watcher hits
    with its first capture, where a watcher with a cleared window needs
    three captures to fill it. *)
Lemma second_watch_sees_stale_window :
  _recent_screenshots (watcher after_first_watch) = ["A"; "A"; "A"] /\
  _last_screenshot (watcher after_first_watch) = Some "A" /\
  shot_calls after_first_watch = 3%nat /\
  (exists m s2,
     watch still_screen 10 [text_not_exists_x] 4 after_first_watch = Some (Ok (true, m), s2) /\
     shot_calls s2 = 4%nat) /\
  (exists m s2,
     watch still_screen 10 [text_not_exists_x] 4 (cleared after_first_watch)
       = Some (Ok (true, m), s2) /\
     shot_calls s2 = 6%nat) /\
  watch still_screen 10 [text_not_exists_x] 4 after_first_watch
    <> watch still_screen 10 [text_not_exists_x] 4 (cleared after_first_watch).
Proof.
  repeat split.
  - eexists. eexists. split; [vm_compute; reflexivity | reflexivity].
  - eexists. eexists. split; [vm_compute; reflexivity | reflexivity].
  - intros H. vm_compute in H. discriminate.
Qed.



(** * Further properties *)

(** ** More on the stability detector *)

(** When the detector says stable: enough frames, and the trailing pairs are
    within the threshold. *)
Lemma is_screen_stable_true_iff E w :
  (exists out, emits w (_is_screen_stable E) true out) <->
  stable_frames w <= Z.of_nat (List.length (_recent_screenshots w)) /\
  pairs_within (lib E) (stable_threshold w) (keep_last (stable_frames w) (_recent_screenshots w)).
Proof.
  destruct (Z_lt_le_dec (Z.of_nat (List.length (_recent_screenshots w))) (stable_frames w))
    as [Hshort|Hlong].
  - split; [|intros [H _]; lia].
    intros [out Hst]. specialize (Hst (state_of w) eq_refl).
    rewrite is_screen_stable_unfold in Hst. cbn [watcher state_of] in Hst.
    rewrite is_stable_short in Hst by exact Hshort. discriminate.
  - destruct (is_stable_long (lib E) _ _ (stable_threshold w) Hlong) as [b [out [Hrun Hb]]].
    split.
    + intros [out' Hst]. specialize (Hst (state_of w) eq_refl).
      rewrite is_screen_stable_unfold in Hst. cbn [watcher state_of] in Hst.
      rewrite Hrun in Hst. injection Hst as -> _. split; [exact Hlong | now apply Hb].
    + intros [_ Hp]. apply Hb in Hp. subst b. exists out. intros s Hs.
      rewrite is_screen_stable_unfold. subst w. apply Hrun.
Qed.

(** X1.  [is_stable] is monotone in its threshold: a window that is stable
    at [thr] is stable at every [thr' >= thr]. *)
Theorem is_stable_threshold_monotone (L : ImageLib) (recent : list frame) (frames : Z)
    (thr thr' : Q) (s s1 : St) :
  (thr <= thr')%Q ->
  is_stable L recent frames thr s = Some (Ok true, s1) ->
  exists s2, is_stable L recent frames thr' s = Some (Ok true, s2).
Proof.
  intros Hle Hrun.
  destruct (Z_lt_le_dec (Z.of_nat (List.length recent)) frames) as [Hshort|Hlong].
  - rewrite is_stable_short in Hrun by exact Hshort. discriminate.
  - destruct (is_stable_long L recent frames thr Hlong) as [b [out [Hb Hiff]]].
    destruct (is_stable_long L recent frames thr' Hlong) as [b' [out' [Hb' Hiff']]].
    rewrite Hb in Hrun. injection Hrun as -> _.
    exists (emit out' s). rewrite Hb'. f_equal. f_equal. f_equal.
    apply Hiff'. intros j x y Hx Hy.
    apply Qle_trans with thr; [|exact Hle].
    now apply (proj1 Hiff eq_refl j).
Qed.

Lemma keep_last_app_long {A} (n : Z) (older recent : list A) :
  n <= Z.of_nat (List.length recent) ->
  keep_last n (older ++ recent) = keep_last n recent.
Proof.
  intros Hn. unfold keep_last. rewrite length_app, skipn_app.
  replace (skipn (List.length older + List.length recent - Z.to_nat n) older) with (@nil A).
  - cbn. f_equal. lia.
  - symmetry. apply skipn_all2. lia.
Qed.

(** X2.  [is_stable] looks at the trailing [stable_frames] frames only:
    frames put in front of a window that is long enough do not change its
    verdict. *)
Theorem is_stable_ignores_older_frames (L : ImageLib) (older recent : list frame)
    (frames : Z) (thr : Q) :
  frames <= Z.of_nat (List.length recent) ->
  exists b out out',
    (forall s, is_stable L recent frames thr s = Some (Ok b, emit out s)) /\
    (forall s, is_stable L (older ++ recent) frames thr s = Some (Ok b, emit out' s)).
Proof.
  intros Hlen.
  destruct (is_stable_long L recent frames thr Hlen) as [b [out [Hb Hiff]]].
  assert (Hlen' : frames <= Z.of_nat (List.length (older ++ recent)))
    by (rewrite length_app; lia).
  destruct (is_stable_long L (older ++ recent) frames thr Hlen') as [b' [out' [Hb' Hiff']]].
  rewrite keep_last_app_long in Hiff' by exact Hlen.
  assert (b' = b) as -> by (destruct b, b'; intuition congruence).
  now exists b, out, out'.
Qed.

(** X3.  With [stable_frames] at most 1 the loop of [is_stable] visits no
    pair: the verdict is just "the window holds [stable_frames] frames", no
    image is decoded and nothing is printed. *)
Theorem is_stable_single_frame (L : ImageLib) (recent : list frame) (frames : Z) (thr : Q)
    (s : St) :
  frames <= 1 ->
  is_stable L recent frames thr s
  = Some (Ok (negb (Z.of_nat (List.length recent) <? frames)), s).
Proof.
  intros Hone. unfold is_stable.
  destruct (Z.of_nat (List.length recent) <? frames); [reflexivity|].
  unfold py_range.
  replace (Z.to_nat (Z.of_nat (List.length recent)
                     - (Z.of_nat (List.length recent) - frames + 1))) with 0%nat by lia.
  reflexivity.
Qed.

(** ** More on the evaluator *)

Lemma py_in_empty (s : string) : py_in "" s = true.
Proof. destruct s; reflexivity. Qed.

(** X4.  The empty target is a substring of every line: [contains_text]
    with [""] is true exactly when the OCR result is not empty, and
    [not_contains_text] with [""] exactly when it is empty. *)
Theorem contains_text_empty_target (self : OCREngine) (image : frame) :
  (contains_text self image "" = true <-> extract_text self image <> []) /\
  (not_contains_text self image "" = true <-> extract_text self image = []).
Proof.
  unfold not_contains_text, contains_text.
  destruct (extract_text self image) as [|line lines]; cbn.
  - split; split; congruence.
  - rewrite py_in_empty. cbn. split; split; congruence.
Qed.

Lemma image_changed_emits E w (v : string) (t : Q) (x : frame) :
  exists b out,
    emits w (check_assertion E {| type := "image_changed"; value := v; timeout := t |} x) b out /\
    (b = true <->
     (stable_frames w <= Z.of_nat (List.length (_recent_screenshots w)) /\
      pairs_within (lib E) (stable_threshold w)
        (keep_last (stable_frames w) (_recent_screenshots w))) /\
     exists last,
       _last_screenshot w = Some last /\
       (threshold (image_diff_checker w) < score (lib E) last x)%Q).
Proof.
  set (a := {| type := "image_changed"; value := v; timeout := t |}).
  destruct (is_screen_stable_emits E w) as [[|] [out Hst]].
  - destruct (check_assertion_stable E w out a x Hst) as [b [out' [Hrun Hb]]].
    exists b, (out ++ out'). split; [exact Hrun|].
    cbn in Hb. rewrite Hb.
    assert (Hs : exists o, emits w (_is_screen_stable E) true o) by now exists out.
    apply is_screen_stable_true_iff in Hs.
    destruct (_last_screenshot w) as [last|].
    + rewrite Qgtb_true. split.
      * intros Hlt. split; [exact Hs|]. now exists last.
      * intros [_ [last' [[= <-] Hlt]]]. exact Hlt.
    + split; [discriminate | intros [_ [last [Hl _]]]; discriminate].
  - exists false, out. split; [now apply (check_assertion_unstable E w out a x Hst)|].
    split; [discriminate|]. intros [Hs _].
    apply is_screen_stable_true_iff in Hs. destruct Hs as [o Ho].
    pose proof (emits_fun _ _ _ _ _ _ Hst Ho). discriminate.
Qed.


(** ** More on the [for] loop *)

(** A message returned by the [for] loop is the message of a declared
    assertion that evaluated true. *)
Lemma check_assertions_some_in E assertions x (s s' : St) msg :
  check_assertions E assertions x s = Some (Ok (Some msg), s') ->
  exists a, In a assertions /\ msg = hit_message a /\
            exists out, emits (watcher s) (check_assertion E a x) true out.
Proof.
  revert s. induction assertions as [|a rest IH]; intros s Hrun; [discriminate|].
  destruct (check_assertion_emits E (watcher s) a x) as [b [out Hc]].
  rewrite (check_assertions_cons E a rest x s b out Hc) in Hrun.
  destruct b.
  - injection Hrun as <- _. exists a. split; [now left|]. split; [reflexivity|now exists out].
  - apply IH in Hrun. destruct Hrun as [a' [Hin [Hmsg Htrue]]].
    exists a'. split; [now right|]. split; [exact Hmsg | exact Htrue].
Qed.

Lemma check_assertion_ext E a a' x (s : St) :
  same_kind_value a a' -> check_assertion E a x s = check_assertion E a' x s.
Proof.
  destruct a as [ty v t], a' as [ty' v' t']. intros [Hty Hv]. cbn in Hty, Hv. subst ty' v'.
  reflexivity.
Qed.

Lemma check_assertions_ext E l l' x (s : St) :
  Forall2 same_kind_value l l' -> check_assertions E l x s = check_assertions E l' x s.
Proof.
  intros H. revert s. induction H as [|a a' l l' Ha _ IH]; intros s; [reflexivity|].
  destruct (check_assertion_emits E (watcher s) a x) as [b [out Hc]].
  assert (Hc' : emits (watcher s) (check_assertion E a' x) b out).
  { intros s0 Hs0. rewrite <- (check_assertion_ext E a a' x s0 Ha). now apply Hc. }
  rewrite (check_assertions_cons E a l x s b out Hc).
  rewrite (check_assertions_cons E a' l' x s b out Hc').
  destruct b; [|apply IH].
  unfold hit_message. destruct Ha as [-> ->]. reflexivity.
Qed.

(** X6.  The [timeout] field of an [Assertion] is never read: [watch]
    behaves the same (result, final state, printed lines) on two lists of
    assertions that agree on [type] and [value]. *)
Theorem assertion_timeout_is_ignored E fuel (l l' : list Assertion) (timeout : Q) (s : St) :
  Forall2 same_kind_value l l' ->
  watch E fuel l timeout s = watch E fuel l' timeout s.
Proof.
  intros H. rewrite !watch_unfold. rewrite (Forall2_length H).
  generalize (loop_entry timeout (List.length l') s) as s0.
  generalize (time_time E (time_calls s)) as start_time.
  induction fuel as [|fuel IH]; intros start_time s0; [reflexivity|].
  rewrite !watch_loop_step.
  destruct (_running (watcher s0) && Qltb (time_time E (time_calls s0) - start_time) timeout);
    [|reflexivity].
  destruct (screenshot_func E (shot_calls s0)) as [x|e]; [|reflexivity].
  cbn zeta. rewrite (check_assertions_ext E l l' x _ H).
  destruct (check_assertions E l' x _) as [[[[msg|]|e] s3]|]; try reflexivity.
  destruct (Qltb (poll_interval (watcher s3)) 0); [reflexivity | apply IH].
Qed.

Lemma unknown_kind_false E w a x :
  ~ known_kind (type a) ->
  exists out, emits w (check_assertion E a x) false out.
Proof.
  intros Hk.
  destruct (is_screen_stable_emits E w) as [[|] [out Hst]].
  - destruct (check_assertion_stable E w out a x Hst) as [b [out' [Hrun Hb]]].
    exists (out ++ out'). replace false with b; [exact Hrun|]. rewrite Hb.
    destruct (String.eqb_spec (type a) "text_exists") as [H1|_];
      [exfalso; apply Hk; now left|].
    destruct (String.eqb_spec (type a) "text_not_exists") as [H2|_];
      [exfalso; apply Hk; right; now left|].
    destruct (String.eqb_spec (type a) "image_changed") as [H3|_];
      [exfalso; apply Hk; right; now right | reflexivity].
  - exists out. now apply check_assertion_unstable.
Qed.

(** X7.  An assertion whose [type] is none of ["text_exists"],
    ["text_not_exists"], ["image_changed"] evaluates false in every state, so
    a watch whose assertions are all of unknown kinds (or which has none)
    never returns a hit. *)
Theorem unknown_kind_never_hits E :
  (forall s a x, ~ known_kind (type a) ->
     exists out, check_assertion E a x s = Some (Ok false, emit out s)) /\
  (forall fuel assertions timeout s r s',
     (forall a, In a assertions -> ~ known_kind (type a)) ->
     watch E fuel assertions timeout s = Some (r, s') ->
     forall m, r <> Ok (true, m)).
Proof.
  split.
  - intros s a x Hk. destruct (unknown_kind_false E (watcher s) a x Hk) as [out H].
    exists out. now apply H.
  - intros fuel assertions timeout s r s' Hall Hrun m ->.
    rewrite watch_unfold in Hrun. apply watch_loop_sound, loop_run_hit in Hrun.
    destruct Hrun as [s0 [x [msg [_ [_ Hchk]]]]].
    apply check_assertions_some_in in Hchk. destruct Hchk as [a [Hin [_ [out Ht]]]].
    destruct (unknown_kind_false E (watcher s0) a x (Hall a Hin)) as [out' Hf].
    pose proof (emits_fun _ _ _ _ _ _ Ht Hf). discriminate.
Qed.

(** ** More on the [while] loop *)

(** X8.  When [watch] returns a result, hit or timeout, [_running] is
    cleared; when it is left by an exception, [_running] is still set. *)
Theorem running_flag_after_watch E fuel assertions (timeout : Q) (s : St) r s' :
  watch E fuel assertions timeout s = Some (r, s') ->
  _running (watcher s') = match r with Ok _ => false | Err _ => true end.
Proof.
  intros Hrun. rewrite watch_unfold in Hrun. apply watch_loop_sound in Hrun.
  induction Hrun as [s0 Hc|s0 e Hc Hshot|s0 x msg s3 Hc Hshot Hchk
                    |s0 x s3 Hc Hshot Hchk Hp|s0 x s3 r s' Hc Hshot Hchk Hp Hrun IH].
  - reflexivity.
  - unfold continues in Hc. apply andb_true_iff in Hc. now destruct Hc.
  - apply check_assertions_state in Hchk. destruct Hchk as [found [out [[= <-] ->]]].
    reflexivity.
  - apply check_assertions_state in Hchk. destruct Hchk as [found [out [[= <-] ->]]].
    unfold continues in Hc. apply andb_true_iff in Hc. now destruct Hc.
  - exact IH.
Qed.

(** X9.  With a timeout of zero or less and a clock that does not go back
    between its first two readings, [watch] returns [(False, None)] without
    calling the capture function; the window and the previous frame are
    untouched and the two lines of the start and of the timeout are
    printed. *)
Theorem watch_with_no_time_left E fuel assertions (timeout : Q) (s : St) :
  (timeout <= 0)%Q ->
  (time_time E (time_calls s) <= time_time E (S (time_calls s)))%Q ->
  exists s',
    watch E (S fuel) assertions timeout s = Some (Ok (false, None), s') /\
    shot_calls s' = shot_calls s /\
    _recent_screenshots (watcher s') = _recent_screenshots (watcher s) /\
    _last_screenshot (watcher s') = _last_screenshot (watcher s) /\
    stdout s' = stdout s ++ [PrintWatchStart timeout (List.length assertions);
                             PrintWatchTimeout timeout].
Proof.
  intros Ht Hclock. rewrite watch_unfold, watch_loop_step.
  cbn [loop_entry watcher emit tick_clock set_watcher with_running _running time_calls andb].
  replace (Qltb _ timeout) with false.
  - eexists. split; [reflexivity|]. repeat split. cbn. now rewrite <- app_assoc.
  - symmetry. unfold Qltb. apply negb_false_iff, Qle_bool_iff.
    apply Qle_trans with 0%Q; [exact Ht|].
    now apply (Qplus_le_l _ _ (time_time E (time_calls s))); ring_simplify.
Qed.

(** X10.  With a negative [poll_interval] there is no second tick: [watch]
    captures at most one frame, and when that capture succeeds the watch
    ends either with a hit or with the [ValueError] of [time.sleep]. *)
Theorem negative_poll_interval_stops_after_one_tick E fuel assertions (timeout : Q) (s : St)
    r s' :
  (poll_interval (watcher s) < 0)%Q ->
  watch E fuel assertions timeout s = Some (r, s') ->
  (shot_calls s' <= S (shot_calls s))%nat /\
  (forall x, screenshot_func E (shot_calls s) = Ok x ->
     shot_calls s' = S (shot_calls s) ->
     (exists m, r = Ok (true, m)) \/
     r = Err (ValueError "sleep length must be non-negative")).
Proof.
  intros Hneg Hrun. rewrite watch_unfold in Hrun. apply watch_loop_sound in Hrun.
  assert (Hp0 : Qltb (poll_interval (watcher (loop_entry timeout (List.length assertions) s))) 0
                = true).
  { cbn. unfold Qltb. apply negb_true_iff.
    destruct (Qle_bool 0 (poll_interval (watcher s))) eqn:Hb; [|reflexivity].
    apply Qle_bool_iff in Hb. exfalso. exact (Qlt_not_le _ _ Hneg Hb). }
  change (shot_calls s) with (shot_calls (loop_entry timeout (List.length assertions) s)).
  remember (loop_entry timeout (List.length assertions) s) as s0 eqn:Hs0. clear Hs0 Hneg.
  inversion Hrun as [s1 Hc|s1 e Hc Hshot|s1 x msg s3 Hc Hshot Hchk
                    |s1 x s3 Hc Hshot Hchk Hp|s1 x s3 r1 s1' Hc Hshot Hchk Hp Hnext]; subst.
  - split; [destruct (_running (watcher s0)); cbn; lia|].
    intros x _ Hs. exfalso. destruct (_running (watcher s0)); cbn in Hs; lia.
  - split; [cbn; lia|]. intros x Hx _. congruence.
  - apply check_assertions_state in Hchk. destruct Hchk as [found [out [[= <-] ->]]].
    split; [cbn; lia|]. intros _ _ _. left. now exists (Some msg).
  - apply check_assertions_state in Hchk. destruct Hchk as [found [out [[= <-] ->]]].
    split; [cbn; lia|]. intros _ _ _. now right.
  - apply check_assertions_state in Hchk. destruct Hchk as [found [out [[= <-] ->]]].
    cbn in Hp. cbn in Hp0. congruence.
Qed.

(** X11.  [stop] clears [_running] and is idempotent, but a [stop] issued
    before [watch] is lost: [watch] sets [_running] again and behaves as if
    [stop] had not been called. *)
Theorem stop_before_watch_is_lost E fuel assertions (timeout : Q) (s : St) :
  exists s0,
    stop s = Some (Ok tt, s0) /\
    stop s0 = Some (Ok tt, s0) /\
    _running (watcher s0) = false /\
    watch E fuel assertions timeout s0 = watch E fuel assertions timeout s.
Proof.
  exists (set_watcher (with_running false (watcher s)) s).
  split; [reflexivity|]. split; [reflexivity|]. split; [reflexivity|].
  rewrite !watch_unfold. reflexivity.
Qed.

(** ** The previous frame and the window *)

Lemma newest_app (l : list frame) (x : frame) : newest (l ++ [x]) = Some x.
Proof. unfold newest. rewrite map_app. cbn. apply last_last. Qed.

Lemma newest_some (l : list frame) (y : frame) :
  newest l = Some y -> exists older, l = older ++ [y].
Proof.
  intros Hn.
  assert (Hne : l <> []) by (intros ->; discriminate).
  destruct (exists_last Hne) as [older [z ->]].
  rewrite newest_app in Hn. injection Hn as ->. now exists older.
Qed.

Lemma keep_last_snoc {A} (n : Z) (l : list A) (x : A) :
  1 <= n -> exists older, keep_last n (l ++ [x]) = older ++ [x].
Proof.
  intros Hn. unfold keep_last. rewrite length_app. cbn [List.length].
  exists (skipn (List.length l + 1 - Z.to_nat n) l).
  rewrite skipn_app.
  replace (List.length l + 1 - Z.to_nat n - List.length l)%nat with 0%nat by lia.
  reflexivity.
Qed.

Lemma newest_keep_last (n : Z) (l : list frame) (x : frame) :
  1 <= n -> newest (keep_last n (l ++ [x])) = Some x.
Proof.
  intros Hn. destruct (keep_last_snoc n l x Hn) as [older ->]. apply newest_app.
Qed.

(** With room for two frames, the window after a push ends with the frame
    that was newest before and the pushed one. *)
Lemma keep_last_two (n : Z) (older : list frame) (y x : frame) :
  2 <= n ->
  exists j, nth_error (keep_last n ((older ++ [y]) ++ [x])) j = Some y /\
            nth_error (keep_last n ((older ++ [y]) ++ [x])) (S j) = Some x.
Proof.
  intros Hn.
  exists (List.length older - (List.length older + 2 - Z.to_nat n))%nat.
  rewrite !nth_error_keep_last, !length_app. cbn [List.length].
  split.
  - replace (_ + _)%nat with (List.length older) by lia.
    rewrite <- app_assoc. now rewrite nth_error_app2, Nat.sub_diag by lia.
  - replace (_ + _)%nat with (List.length (older ++ [y])) by (rewrite length_app; cbn; lia).
    now rewrite nth_error_app2, Nat.sub_diag by lia.
Qed.

(** What holds between two ticks is kept by a tick without a hit. *)
Lemma synced_after_tick E assertions x (s s3 : St) :
  1 <= stable_frames (watcher s) -> window_bounded s ->
  check_assertions E assertions x (after_push x s) = Some (Ok None, s3) ->
  let s4 := set_watcher (with_last (Some x) (watcher s3)) s3 in
  same_config (watcher s) (watcher s4) /\ window_bounded s4 /\ synced s4.
Proof.
  intros Hsf Hb Hchk. apply check_assertions_state in Hchk.
  destruct Hchk as [found [out [[= <-] ->]]]. cbn zeta.
  unfold window_bounded, synced in *. state_fields.
  split; [repeat split|].
  rewrite (pushed_keep_last _ _ x Hb).
  split; [apply keep_last_bounded; lia | now rewrite newest_keep_last].
Qed.

(** The tick on which a run of the loop ends, reached through ticks without a
    hit. *)
Lemma loop_run_last_tick E assertions (start_time timeout : Q) (I : St -> Prop) :
  (forall s x s3, I s ->
     continues E start_time timeout s = true ->
     screenshot_func E (shot_calls s) = Ok x ->
     check_assertions E assertions x (after_push x s) = Some (Ok None, s3) ->
     I (set_watcher (with_last (Some x) (watcher s3)) s3)) ->
  forall s r s',
    loop_run E assertions start_time timeout s r s' -> I s ->
    exists s1,
      I s1 /\
      ((r = Ok (false, None) /\ watcher s' = with_running false (watcher s1)) \/
       (exists e, r = Err e /\ watcher s' = watcher s1) \/
       (exists x msg, r = Ok (true, Some msg) /\
          check_assertions E assertions x (after_push x s1) = Some (Ok (Some msg), s')) \/
       (exists x s3, r = Err (ValueError "sleep length must be non-negative") /\
          check_assertions E assertions x (after_push x s1) = Some (Ok None, s3) /\
          s' = set_watcher (with_last (Some x) (watcher s3)) s3)).
Proof.
  intros Hstep s r s' Hrun.
  induction Hrun as [s Hc|s e Hc Hshot|s x msg s3 Hc Hshot Hchk
                    |s x s3 Hc Hshot Hchk Hp|s x s3 r s' Hc Hshot Hchk Hp Hrun IH];
    intros HI.
  - exists s. split; [exact HI|]. left. split; [reflexivity|].
    now destruct (_running (watcher s)).
  - exists s. split; [exact HI|]. right. left. now exists e.
  - exists s. split; [exact HI|]. right. right. left. now exists x, msg.
  - exists s. split; [exact HI|]. right. right. right. now exists x, s3.
  - apply IH. now apply (Hstep s x s3).
Qed.


(** On a tick that starts with the previous frame in step with the window,
    and with [image_changed] no finer than the stability threshold,
    [image_changed] is false: the pair it compares is the last pair the
    stability detector accepted. *)
Lemma image_changed_false_on_tick E (s : St) (x : frame) (v : string) (t : Q) :
  2 <= stable_frames (watcher s) -> window_bounded s -> synced s ->
  (stable_threshold (watcher s) <= threshold (image_diff_checker (watcher s)))%Q ->
  exists out,
    emits (watcher (after_push x s))
          (check_assertion E {| type := "image_changed"; value := v; timeout := t |} x)
          false out.
Proof.
  intros Hsf Hb Hsync Hthr.
  destruct (image_changed_emits E (watcher (after_push x s)) v t x) as [[|] [out [Hrun Hiff]]];
    [|now exists out].
  exfalso. destruct (proj1 Hiff eq_refl) as [[Hlen Hpairs] [last [Hlast Hlt]]].
  revert Hlen Hpairs Hlast Hlt. state_fields. unfold window_bounded, synced in *.
  rewrite (pushed_keep_last _ _ x Hb). intros Hlen Hpairs Hlast Hlt.
  rewrite Hsync in Hlast. apply newest_some in Hlast. destruct Hlast as [older Hold].
  rewrite Hold in *.
  cbn [stable_threshold image_diff_checker with_recent] in Hpairs, Hlt.
  rewrite (keep_last_all (stable_frames (watcher s))
             (keep_last (stable_frames (watcher s)) ((older ++ [last]) ++ [x]))) in Hpairs
    by (apply keep_last_bounded; lia).
  destruct (keep_last_two (stable_frames (watcher s)) older last x Hsf) as [j [Hy Hx]].
  specialize (Hpairs j last x Hy Hx).
  apply (Qlt_irrefl (score (lib E) last x)).
  eapply Qle_lt_trans; [exact Hpairs|]. eapply Qle_lt_trans; [exact Hthr | exact Hlt].
Qed.

(** X13.  Started as in X12 with [stable_frames >= 2], when the checker's
    threshold is not below [stable_threshold] (the defaults are 0.15 and
    0.05), a watch of [image_changed] assertions never returns a hit: the
    pair [image_changed] compares is the last pair the stability detector
    accepted. *)
Theorem image_changed_needs_finer_threshold E fuel assertions (timeout : Q) (s : St) r s' :
  2 <= stable_frames (watcher s) -> window_bounded s -> synced s ->
  (stable_threshold (watcher s) <= threshold (image_diff_checker (watcher s)))%Q ->
  (forall a, In a assertions -> type a = "image_changed") ->
  watch E fuel assertions timeout s = Some (r, s') ->
  forall m, r <> Ok (true, m).
Proof.
  intros Hsf Hb Hsync Hthr Hall Hrun m ->.
  rewrite watch_unfold in Hrun. apply watch_loop_sound in Hrun.
  set (I := fun s1 : St => same_config (watcher s) (watcher s1) /\
                            window_bounded s1 /\ synced s1).
  apply (loop_run_last_tick E assertions _ timeout I) in Hrun.
  - destruct Hrun as [s1 [[Hcfg [Hb1 Hs1]] Hlast]].
    destruct Hcfg as (_ & Hck & _ & Hf & Ht).
    destruct Hlast as [[[=] _]|[[e [[=] _]]|[[x [msg [_ Hchk]]]|[x [s3 [[=] _]]]]]].
    apply check_assertions_some_in in Hchk. destruct Hchk as [a [Hin [_ [out Htrue]]]].
    specialize (Hall a Hin). destruct a as [ty v t]. cbn in Hall. subst ty.
    destruct (image_changed_false_on_tick E s1 x v t) as [out' Hfalse];
      [rewrite Hf; exact Hsf | exact Hb1 | exact Hs1 | rewrite Ht, Hck; exact Hthr |].
    pose proof (emits_fun _ _ _ _ _ _ Htrue Hfalse). discriminate.
  - intros s1 x s3 [Hcfg [Hb1 Hs1]] _ _ Hchk.
    assert (Hsf1 : 1 <= stable_frames (watcher s1))
      by (destruct Hcfg as (_&_&_&H&_); rewrite H; lia).
    destruct (synced_after_tick E assertions x s1 s3 Hsf1 Hb1 Hchk) as [Hcfg' [Hb' Hs']].
    split; [exact (same_config_trans _ _ _ Hcfg Hcfg') | now split].
  - split; [repeat split | split; assumption].
Qed.

(** ** More on runner.py *)

(** X14.  The conversion of the assertion dicts succeeds exactly when every
    dict has the keys ["type"] and ["value"]; it then yields one [Assertion]
    per dict, in order, with the dict's timeout or else the overall one.
    Otherwise it raises the [KeyError] of the first dict that lacks a key,
    ["type"] being looked up before ["value"]. *)
Theorem to_assertions_in_order (timeout : Q) (assertions : list AssertionDict) :
  (well_formed assertions ->
   to_assertions timeout assertions = Ok (map (assertion_of timeout) assertions)) /\
  (forall objs, to_assertions timeout assertions = Ok objs -> well_formed assertions) /\
  (forall pre a post,
     assertions = pre ++ a :: post -> well_formed pre ->
     (key_type a = None -> to_assertions timeout assertions = Err (KeyError "type")) /\
     (key_type a <> None -> key_value a = None ->
      to_assertions timeout assertions = Err (KeyError "value"))).
Proof.
  split; [apply to_assertions_map|]. split; [apply to_assertions_ok_well_formed|].
  intros pre a post -> Hpre.
  induction Hpre as [|b pre [Ht Hv] _ IH]; cbn [app to_assertions].
  - destruct a as [[ty|] [v|] tm]; cbn; split; congruence.
  - rewrite (to_assertion_present timeout b Ht Hv). cbn [res_bind].
    destruct IH as [IH1 IH2]. split.
    + intros H. now rewrite (IH1 H).
    + intros H1 H2. now rewrite (IH2 H1 H2).
Qed.
(** X15.  Whenever [run_with_assertion] returns a result: on success the
    failure-screenshot function was not called and no path is attached; on
    failure it was called once, and its value is attached, or, if that call
    raised, a second time, and then the message carries the text of the
    first call's exception. *)
Theorem save_screenshot_called_on_failure_only E fuel prompt assertions (timeout : Q)
    (s : St) result s' :
  run_with_assertion E fuel prompt assertions timeout s = Some (Ok result, s') ->
  (success result = true ->
   save_calls s' = save_calls s /\ screenshot_path result = None) /\
  (success result = false ->
   match save_screenshot_func E with
   | None => save_calls s' = save_calls s /\ screenshot_path result = None
   | Some f =>
       (f (save_calls s) = Ok (screenshot_path result) /\ save_calls s' = S (save_calls s)) \/
       (exists e,
          f (save_calls s) = Err e /\ f (S (save_calls s)) = Ok (screenshot_path result) /\
          save_calls s' = S (S (save_calls s)) /\
          message result = ("断言执行异常: " ++ exn_str e)%string)
   end).
Proof.
  intros Hrun.
  destruct (to_assertions timeout assertions) as [objs|e] eqn:Hobjs;
    [|rewrite run_with_assertion_unfold, Hobjs in Hrun; discriminate].
  rewrite (run_with_assertion_cases E fuel prompt assertions timeout s objs Hobjs) in Hrun.
  destruct (watch E fuel objs timeout (run_entry E prompt objs s)) as [[wr s2]|] eqn:Hwatch;
    [|discriminate].
  apply watch_keeps_save_calls in Hwatch.
  destruct (run_entry_fields E prompt objs s) as (_ & Hsave & _).
  rewrite Hsave in Hwatch. clear Hsave.
  unfold report_outcome, handler_outcome in Hrun.
  destruct wr as [[[|] m]|e].
  - injection Hrun as <- <-. cbn. split; [now split | discriminate].
  - destruct (save_screenshot_func E) as [f|].
    + cbn [save_calls tick_save stopped tick_clock emit set_watcher] in Hrun.
      rewrite Hwatch in Hrun.
      destruct (f (save_calls s)) as [p|e] eqn:H1.
      * injection Hrun as <- <-. cbn. split; [discriminate|]. intros _. left. now rewrite Hwatch.
      * destruct (is_Exception e); [|discriminate].
        destruct (f (S (save_calls s))) as [p|e'] eqn:H2; [|discriminate].
        injection Hrun as <- <-. cbn. split; [discriminate|]. intros _. right.
        exists e. now rewrite Hwatch.
    + injection Hrun as <- <-. cbn. split; [discriminate|]. now split.
  - destruct (is_Exception e); [|discriminate].
    destruct (save_screenshot_func E) as [f|].
    + rewrite Hwatch in Hrun. destruct (f (save_calls s)) as [p|e'] eqn:H1; [|discriminate].
      injection Hrun as <- <-. cbn. split; [discriminate|]. intros _. left. now rewrite Hwatch.
    + injection Hrun as <- <-. cbn. split; [discriminate|]. now split.
Qed.

(** X16.  When the watch times out and the failure-screenshot function
    raises an [Exception], the [except] handler takes over: the function is
    called a second time, and if that call returns, the result is reported
    as an exception (with the text of the screenshot function's exception),
    not as a timeout.  When what it raises is not an [Exception], that
    exception leaves [run_with_assertion] after the one call. *)
Theorem timeout_with_failing_screenshot E fuel prompt assertions (timeout : Q) (s : St)
    objs m s2 f e path :
  to_assertions timeout assertions = Ok objs ->
  watch E fuel objs timeout (run_entry E prompt objs s) = Some (Ok (false, m), s2) ->
  save_screenshot_func E = Some f ->
  f (save_calls s) = Err e ->
  f (S (save_calls s)) = Ok path ->
  if is_Exception e then
    exists result s',
      run_with_assertion E fuel prompt assertions timeout s = Some (Ok result, s') /\
      success result = false /\
      message result = ("断言执行异常: " ++ exn_str e)%string /\
      screenshot_path result = path /\
      save_calls s' = S (S (save_calls s))
  else
    exists s',
      run_with_assertion E fuel prompt assertions timeout s = Some (Err e, s') /\
      save_calls s' = S (save_calls s).
Proof.
  intros Hobjs Hwatch Hf H1 H2.
  rewrite (run_with_assertion_cases E fuel prompt assertions timeout s objs Hobjs), Hwatch.
  apply watch_keeps_save_calls in Hwatch.
  destruct (run_entry_fields E prompt objs s) as (_ & Hsave & _).
  rewrite Hsave in Hwatch.
  unfold report_outcome, handler_outcome. rewrite Hf.
  cbn [save_calls tick_save stopped tick_clock emit set_watcher].
  rewrite Hwatch, H1. destruct (is_Exception e).
  - rewrite H2. eexists. eexists. split; [reflexivity|].
    cbn. now rewrite Hwatch.
  - eexists. split; [reflexivity|]. cbn. now rewrite Hwatch.
Qed.

(** A watch left by an exception leaves [_running] set. *)
Lemma watch_err_running E fuel assertions (timeout : Q) (s : St) e s' :
  watch E fuel assertions timeout s = Some (Err e, s') -> _running (watcher s') = true.
Proof.
  intros Hrun. rewrite watch_unfold in Hrun. apply watch_loop_sound in Hrun.
  remember (Err e) as r eqn:Hr.
  induction Hrun as [s0 Hc|s0 e0 Hc Hshot|s0 x msg s3 Hc Hshot Hchk
                    |s0 x s3 Hc Hshot Hchk Hp|s0 x s3 r s' Hc Hshot Hchk Hp Hrun IH];
    try discriminate.
  - unfold continues in Hc. apply andb_true_iff in Hc. now destruct Hc.
  - apply check_assertions_state in Hchk. destruct Hchk as [found [out [[= <-] ->]]].
    unfold continues in Hc. apply andb_true_iff in Hc. now destruct Hc.
  - exact (IH Hr).
Qed.

(** X17.  With dicts that carry both keys, [run_with_assertion] leaves
    [_running] set exactly when [watch] was left by an exception that is not
    an [Exception] (Ctrl-C, say): it passes the [except Exception] clause, so
    that [run_with_assertion] is left by it with the agent not stopped, in
    the state in which [watch] was left.  In every other case, with a result
    or with an exception of the failure-screenshot function, [_running] is
    cleared. *)
Theorem run_with_assertion_clears_running E fuel prompt assertions (timeout : Q) (s : St)
    r s' :
  well_formed assertions ->
  run_with_assertion E fuel prompt assertions timeout s = Some (r, s') ->
  exists objs wr s2,
    to_assertions timeout assertions = Ok objs /\
    watch E fuel objs timeout (run_entry E prompt objs s) = Some (wr, s2) /\
    _running (watcher s')
      = match wr with Ok _ => false | Err e => negb (is_Exception e) end /\
    (_running (watcher s') = true -> exists e, wr = Err e /\ r = Err e /\ s' = s2).
Proof.
  intros Hwf Hrun.
  destruct (to_assertions_well_formed timeout assertions Hwf) as [objs Hobjs].
  rewrite (run_with_assertion_cases E fuel prompt assertions timeout s objs Hobjs) in Hrun.
  destruct (watch E fuel objs timeout (run_entry E prompt objs s)) as [[wr s2]|] eqn:Hwatch;
    [|discriminate].
  exists objs, wr, s2. split; [exact Hobjs|]. split; [exact Hwatch|].
  unfold report_outcome, handler_outcome in Hrun.
  destruct wr as [[[|] m]|e].
  - injection Hrun as <- <-. split; [reflexivity | discriminate].
  - destruct (save_screenshot_func E) as [f|];
      repeat match type of Hrun with
             | context [match ?c with Ok _ => _ | Err _ => _ end] => destruct c
             | context [if is_Exception ?e then _ else _] => destruct (is_Exception e)
             end;
      injection Hrun as <- <-; (split; [reflexivity | discriminate]).
  - destruct (is_Exception e) eqn:Hexc.
    + destruct (save_screenshot_func E) as [f|];
        repeat match type of Hrun with
               | context [match ?c with Ok _ => _ | Err _ => _ end] => destruct c
               end;
        injection Hrun as <- <-; (split; [reflexivity | discriminate]).
    + injection Hrun as <- <-. cbn [negb]. split.
      * exact (watch_err_running _ _ _ _ _ _ _ Hwatch).
      * intros _. exists e. repeat split.
Qed.

Lemma known_kind_dec (ty : string) : known_kind ty \/ ~ known_kind ty.
Proof.
  unfold known_kind.
  destruct (String.eqb_spec ty "text_exists"); [now left; left|].
  destruct (String.eqb_spec ty "text_not_exists"); [now left; right; left|].
  destruct (String.eqb_spec ty "image_changed"); [now left; right; right|].
  right. intros [H|[H|H]]; contradiction.
Qed.

(** A hit reported by [watch] carries the message of a declared assertion of
    a known kind. *)
Lemma watch_hit_message E fuel assertions (timeout : Q) (s : St) m s' :
  watch E fuel assertions timeout s = Some (Ok (true, m), s') ->
  exists a, In a assertions /\ m = Some (hit_message a) /\ known_kind (type a).
Proof.
  intros Hrun. rewrite watch_unfold in Hrun. apply watch_loop_sound, loop_run_hit in Hrun.
  destruct Hrun as [s0 [x [msg [-> [_ Hchk]]]]].
  apply check_assertions_some_in in Hchk. destruct Hchk as [a [Hin [-> [out Htrue]]]].
  exists a. split; [exact Hin|]. split; [reflexivity|].
  destruct (known_kind_dec (type a)) as [Hk|Hk]; [exact Hk|].
  destruct (unknown_kind_false E (watcher s0) a x Hk) as [out' Hfalse].
  pose proof (emits_fun _ _ _ _ _ _ Htrue Hfalse). discriminate.
Qed.

(** X18.  The message of a successful result is
    ["断言命中: <type> = <value>"] for one of the dicts passed in, whose type
    is one of the three known kinds; the fallback ["断言通过"] is never
    used. *)
Theorem success_message_names_the_assertion E fuel prompt assertions (timeout : Q) (s : St)
    result s' :
  run_with_assertion E fuel prompt assertions timeout s = Some (Ok result, s') ->
  success result = true ->
  exists a ty v,
    In a assertions /\ key_type a = Some ty /\ key_value a = Some v /\ known_kind ty /\
    message result = ("断言命中: " ++ ty ++ " = " ++ v)%string.
Proof.
  intros Hrun Hsucc.
  destruct (to_assertions timeout assertions) as [objs|e] eqn:Hobjs;
    [|rewrite run_with_assertion_unfold, Hobjs in Hrun; discriminate].
  rewrite (run_with_assertion_cases E fuel prompt assertions timeout s objs Hobjs) in Hrun.
  destruct (watch E fuel objs timeout (run_entry E prompt objs s)) as [[wr s2]|] eqn:Hwatch;
    [|discriminate].
  unfold report_outcome, handler_outcome in Hrun.
  destruct wr as [[[|] m]|e].
  - injection Hrun as <- <-.
    apply watch_hit_message in Hwatch. destruct Hwatch as [obj [Hin [-> Hk]]].
    pose proof (to_assertions_ok_well_formed timeout assertions objs Hobjs) as Hwf.
    rewrite (to_assertions_map timeout assertions Hwf) in Hobjs.
    injection Hobjs as <-. apply in_map_iff in Hin. destruct Hin as [a [<- Hina]].
    unfold well_formed in Hwf. rewrite Forall_forall in Hwf.
    destruct (Hwf a Hina) as [Ht Hv].
    destruct a as [[ty|] [v|] tm]; cbn in Ht, Hv; try congruence.
    exists {| key_type := Some ty; key_value := Some v; key_timeout := tm |}, ty, v.
    split; [exact Hina|]. split; [reflexivity|]. split; [reflexivity|].
    split; [exact Hk | reflexivity].
  - exfalso. destruct (save_screenshot_func E) as [f|];
      repeat match type of Hrun with
             | context [match ?c with Ok _ => _ | Err _ => _ end] => destruct c
             | context [if is_Exception ?e then _ else _] => destruct (is_Exception e)
             end;
      try discriminate; injection Hrun as <- <-; discriminate.
  - exfalso. destruct (is_Exception e); [|discriminate].
    destruct (save_screenshot_func E) as [f|];
      repeat match type of Hrun with
             | context [match ?c with Ok _ => _ | Err _ => _ end] => destruct c
             end;
      try discriminate; injection Hrun as <- <-; discriminate.
Qed.

(** ** The clock *)

Lemma Qltb_false (x y : Q) : Qltb x y = false <-> (y <= x)%Q.
Proof. unfold Qltb. rewrite negb_false_iff. apply Qle_bool_iff. Qed.

Lemma clock_monotone_le E (n m : nat) :
  clock_monotone E -> (n <= m)%nat -> (time_time E n <= time_time E m)%Q.
Proof.
  intros Hmono Hle. induction Hle as [|m _ IH]; [apply Qle_refl|].
  apply Qle_trans with (time_time E m); [exact IH | apply Hmono].
Qed.

(** A run of the loop entered with [_running] set: one clock reading per
    capture, one more when the loop ends on its condition, which then is the
    deadline. *)
Lemma loop_run_clock E assertions (start_time timeout : Q) s r s' :
  loop_run E assertions start_time timeout s r s' ->
  _running (watcher s) = true ->
  (shot_calls s <= shot_calls s')%nat /\
  match r with
  | Ok (false, m) =>
      m = None /\
      time_calls s' = S (time_calls s + (shot_calls s' - shot_calls s)) /\
      (timeout <= time_time E (time_calls s' - 1) - start_time)%Q
  | _ => time_calls s' = (time_calls s + (shot_calls s' - shot_calls s))%nat
  end.
Proof.
  intros Hrun.
  induction Hrun as [s Hc|s e Hc Hshot|s x msg s3 Hc Hshot Hchk
                    |s x s3 Hc Hshot Hchk Hp|s x s3 r s' Hc Hshot Hchk Hp Hrun IH];
    intros Hr.
  - unfold continues in Hc. rewrite Hr in *. cbn [andb] in Hc.
    cbn [shot_calls time_calls emit set_watcher tick_clock].
    split; [lia|]. split; [reflexivity|]. split; [lia|].
    replace (S (time_calls s) - 1)%nat with (time_calls s) by lia.
    now apply Qltb_false.
  - cbn [shot_calls time_calls emit set_watcher tick_clock tick_shot after_push hit_state].
    split; lia.
  - apply check_assertions_state in Hchk. destruct Hchk as [found [out [[= <-] ->]]].
    cbn [shot_calls time_calls emit set_watcher tick_clock tick_shot after_push hit_state].
    split; lia.
  - apply check_assertions_state in Hchk. destruct Hchk as [found [out [[= <-] ->]]].
    cbn [shot_calls time_calls emit set_watcher tick_clock tick_shot after_push hit_state].
    split; lia.
  - apply check_assertions_state in Hchk. destruct Hchk as [found [out [[= <-] ->]]].
    destruct (IH Hr) as [Hle Hres]. clear IH.
    cbn [shot_calls time_calls emit set_watcher tick_clock tick_shot after_push hit_state]
      in Hle, Hres.
    split; [lia|].
    destruct r as [[[|] m]|e].
    + lia.
    + destruct Hres as (Hm & Htime & Hdead). split; [exact Hm|]. split; [lia | exact Hdead].
    + lia.
Qed.

(** X19.  [watch] reads the clock once before its loop and once per loop
    check, and captures one frame per tick: when it ends by a hit or an
    exception the clock was read (captures + 1) times, when it ends by a
    timeout (captures + 2) times, the returned message then is [None], and
    the last reading is at least [timeout] after the first. *)
Theorem watch_clock_and_captures E fuel assertions (timeout : Q) (s : St) r s' :
  watch E fuel assertions timeout s = Some (r, s') ->
  (shot_calls s <= shot_calls s')%nat /\
  match r with
  | Ok (false, m) =>
      m = None /\
      time_calls s' = (time_calls s + (shot_calls s' - shot_calls s) + 2)%nat /\
      (timeout <= time_time E (time_calls s' - 1) - time_time E (time_calls s))%Q
  | _ => time_calls s' = (time_calls s + (shot_calls s' - shot_calls s) + 1)%nat
  end.
Proof.
  intros Hrun. rewrite watch_unfold in Hrun. apply watch_loop_sound in Hrun.
  apply loop_run_clock in Hrun; [|reflexivity].
  cbn [loop_entry shot_calls time_calls emit tick_clock set_watcher] in Hrun.
  destruct Hrun as [Hle Hres]. split; [exact Hle|].
  destruct r as [[[|] m]|e]; try lia.
  destruct Hres as (Hm & Htime & Hdead). split; [exact Hm|]. split; [lia | exact Hdead].
Qed.

(** X20.  With a clock that never goes back, a run whose watch timed out
    reports failure with an [elapsed_time] of at least [timeout]. *)
Theorem timed_out_run_took_the_timeout E fuel prompt assertions (timeout : Q) (s : St)
    objs m s2 result s' :
  clock_monotone E ->
  to_assertions timeout assertions = Ok objs ->
  watch E fuel objs timeout (run_entry E prompt objs s) = Some (Ok (false, m), s2) ->
  run_with_assertion E fuel prompt assertions timeout s = Some (Ok result, s') ->
  success result = false /\ (timeout <= elapsed_time result)%Q.
Proof.
  intros Hmono Hobjs Hwatch Hrun.
  rewrite (run_with_assertion_cases E fuel prompt assertions timeout s objs Hobjs), Hwatch
    in Hrun.
  pose proof Hwatch as Hclock. rewrite watch_unfold in Hclock.
  apply watch_loop_sound, loop_run_clock in Hclock; [|reflexivity].
  destruct Hclock as (_ & _ & Htime & Hdead).
  destruct (run_entry_fields E prompt objs s) as (_ & _ & _ & Hentry).
  cbn [loop_entry shot_calls time_calls emit tick_clock set_watcher] in Htime, Hdead.
  rewrite Hentry in Htime, Hdead.
  assert (Hlong : forall n, (time_calls s2 - 1 <= n)%nat ->
            (timeout <= time_time E n - time_time E (time_calls s))%Q).
  { intros n Hn. eapply Qle_trans; [exact Hdead|].
    apply Qplus_le_compat.
    - now apply clock_monotone_le.
    - apply Qopp_le_compat. apply Hmono. }
  unfold report_outcome, handler_outcome in Hrun.
  destruct (save_screenshot_func E) as [f|].
  - destruct (f (save_calls s2)) as [p|e].
    + injection Hrun as <- _. cbn. split; [reflexivity | apply Hlong; lia].
    + cbn [time_calls save_calls tick_save stopped tick_clock emit set_watcher] in Hrun.
      destruct (is_Exception e); [|discriminate].
      destruct (f (S (save_calls s2))) as [p|e']; [|discriminate].
      injection Hrun as <- _. cbn. split; [reflexivity | apply Hlong; lia].
  - injection Hrun as <- _. cbn. split; [reflexivity | apply Hlong; lia].
Qed.

(** ** The verdict of [text_exists] *)


(** ** The further statements at work on the concrete worlds *)

Lemma toy_clock_monotone shots save : clock_monotone (toy_env shots save).
Proof. intros n. unfold Qle. cbn. lia. Qed.

Lemma is_stable_threshold_monotone_on_toy_lib :
  exists s2, is_stable toy_lib ["A"; "A"; "A"] 3 (15 # 100) AssertionRunner_init
             = Some (Ok true, s2).
Proof.
  apply (is_stable_threshold_monotone toy_lib ["A"; "A"; "A"] 3 (5 # 100) (15 # 100)
           AssertionRunner_init AssertionRunner_init).
  - unfold Qle. cbn. lia.
  - vm_compute. reflexivity.
Defined.

Lemma is_stable_ignores_older_frames_on_toy_lib :
  exists b out out',
    (forall s, is_stable toy_lib ["A"; "A"] 2 (5 # 100) s = Some (Ok b, emit out s)) /\
    (forall s, is_stable toy_lib (["B"; "C"] ++ ["A"; "A"]) 2 (5 # 100) s
               = Some (Ok b, emit out' s)).
Proof.
  apply (is_stable_ignores_older_frames toy_lib ["B"; "C"] ["A"; "A"] 2 (5 # 100)).
  cbn. lia.
Defined.

Lemma is_stable_single_frame_on_toy_lib :
  is_stable toy_lib ["A"] 1 (5 # 100) AssertionRunner_init
  = Some (Ok (negb (Z.of_nat (List.length ["A"]) <? 1)), AssertionRunner_init).
Proof.
  apply (is_stable_single_frame toy_lib ["A"] 1 (5 # 100) AssertionRunner_init). lia.
Defined.

Lemma assertion_timeout_is_ignored_on_still_screen :
  watch still_screen 10 [text_not_exists_x] 10 AssertionRunner_init
  = watch still_screen 10 [{| type := "text_not_exists"; value := "x"; timeout := 1 |}] 10
          AssertionRunner_init.
Proof.
  apply (assertion_timeout_is_ignored still_screen 10 [text_not_exists_x]
           [{| type := "text_not_exists"; value := "x"; timeout := 1 |}] 10
           AssertionRunner_init).
  constructor; [split; reflexivity | constructor].
Defined.

Lemma unknown_kind_on_still_screen :
  (exists out, check_assertion still_screen text_exist_typo "A" (after_push "A" warm)
               = Some (Ok false, emit out (after_push "A" warm))) /\
  exists r s',
    watch still_screen 10 [text_exist_typo] 4 AssertionRunner_init = Some (r, s') /\
    forall m, r <> Ok (true, m).
Proof.
  assert (Hk : ~ known_kind (type text_exist_typo)).
  { intros [H|[H|H]]; discriminate. }
  destruct (unknown_kind_never_hits still_screen) as [Hcheck Hwatch].
  split; [now apply Hcheck|].
  eexists. eexists. split; [vm_compute; reflexivity|].
  eapply (Hwatch 10%nat [text_exist_typo] 4%Q AssertionRunner_init);
    [intros a [<-|[]]; exact Hk | vm_compute; reflexivity].
Defined.

Lemma running_flag_on_offline_first :
  exists s',
    watch offline_first 5 [text_not_exists_x] 10 AssertionRunner_init = Some (Err offline, s') /\
    _running (watcher s') = true.
Proof.
  eexists. split; [vm_compute; reflexivity|].
  eapply (running_flag_after_watch offline_first 5 [text_not_exists_x] 10 AssertionRunner_init
            (Err offline)).
  vm_compute. reflexivity.
Defined.

Lemma watch_with_no_time_left_on_still_screen :
  exists s',
    watch still_screen 1 [text_not_exists_x] 0 AssertionRunner_init
      = Some (Ok (false, None), s') /\
    shot_calls s' = shot_calls AssertionRunner_init /\
    _recent_screenshots (watcher s') = _recent_screenshots (watcher AssertionRunner_init) /\
    _last_screenshot (watcher s') = _last_screenshot (watcher AssertionRunner_init) /\
    stdout s' = stdout AssertionRunner_init
                ++ [PrintWatchStart 0 (List.length [text_not_exists_x]); PrintWatchTimeout 0].
Proof.
  apply (watch_with_no_time_left still_screen 0 [text_not_exists_x] 0 AssertionRunner_init).
  - apply Qle_refl.
  - apply toy_clock_monotone.
Defined.

Lemma negative_poll_interval_on_still_screen :
  exists r s',
    watch still_screen 10 [text_exists_x] 10 hasty = Some (r, s') /\
    (shot_calls s' <= S (shot_calls hasty))%nat /\
    r = Err (ValueError "sleep length must be non-negative").
Proof.
  eexists. eexists. split; [vm_compute; reflexivity|].
  assert (Hneg : (poll_interval (watcher hasty) < 0)%Q) by (unfold Qlt; cbn; lia).
  destruct (negative_poll_interval_stops_after_one_tick still_screen 10 [text_exists_x] 10
              hasty _ _ Hneg ltac:(vm_compute; reflexivity)) as [Hle _].
  split; [exact Hle | reflexivity].
Defined.


Lemma image_changed_on_moving_screen :
  exists r s',
    watch moving_screen 10 [image_changed_any] 10 AssertionRunner_init = Some (r, s') /\
    forall m, r <> Ok (true, m).
Proof.
  eexists. eexists. split; [vm_compute; reflexivity|].
  eapply (image_changed_needs_finer_threshold moving_screen 10 [image_changed_any] 10
            AssertionRunner_init).
  - cbn. lia.
  - unfold window_bounded. cbn. lia.
  - reflexivity.
  - unfold Qle. cbn. lia.
  - intros a [<-|[]]. reflexivity.
  - vm_compute. reflexivity.
Defined.

Lemma to_assertions_on_dicts :
  to_assertions 10 [dict_text_exists_x; dict_text_not_exists_x]
    = Ok (map (assertion_of 10) [dict_text_exists_x; dict_text_not_exists_x]) /\
  to_assertions 10 ([dict_text_exists_x] ++ dict_without_type :: [dict_text_not_exists_x])
    = Err (KeyError "type").
Proof.
  split.
  - apply (proj1 (to_assertions_in_order 10 [dict_text_exists_x; dict_text_not_exists_x])).
    repeat constructor; discriminate.
  - destruct (to_assertions_in_order 10
                ([dict_text_exists_x] ++ dict_without_type :: [dict_text_not_exists_x]))
      as (_ & _ & Herr).
    apply (Herr [dict_text_exists_x] dict_without_type [dict_text_not_exists_x] eq_refl).
    + repeat constructor; discriminate.
    + reflexivity.
Defined.

Lemma save_screenshot_on_still_screen :
  exists result s',
    run_with_assertion still_screen_saving 10 "go" [dict_text_not_exists_x] 10
                       AssertionRunner_init = Some (Ok result, s') /\
    save_calls s' = save_calls AssertionRunner_init /\ screenshot_path result = None.
Proof.
  eexists. eexists. split; [vm_compute; reflexivity|].
  eapply (save_screenshot_called_on_failure_only still_screen_saving 10 "go"
            [dict_text_not_exists_x] 10 AssertionRunner_init);
    [vm_compute; reflexivity | reflexivity].
Defined.

Lemma timeout_with_failing_screenshot_on_still_screen :
  exists result s',
    run_with_assertion still_screen_save_fails_once 10 "go" [dict_text_exists_x] 4
                       AssertionRunner_init = Some (Ok result, s') /\
    success result = false /\
    message result = ("断言执行异常: " ++ exn_str offline)%string /\
    screenshot_path result = Some "fail.png" /\
    save_calls s' = S (S (save_calls AssertionRunner_init)).
Proof.
  eapply (timeout_with_failing_screenshot still_screen_save_fails_once 10 "go"
            [dict_text_exists_x] 4 AssertionRunner_init _ _ _ save_fails_once offline
            (Some "fail.png")).
  - reflexivity.
  - vm_compute. reflexivity.
  - reflexivity.
  - reflexivity.
  - reflexivity.
Defined.

(** With the device gone the handler runs and [_running] is cleared; Ctrl-C
    during a capture leaves it set, and no failure screenshot is taken. *)
Lemma run_clears_running_on_offline_all :
  (exists s',
     run_with_assertion offline_all 10 "go" [dict_text_exists_x] 10 AssertionRunner_init
       = Some (Err offline, s') /\
     _running (watcher s') = false) /\
  (exists s',
     run_with_assertion interrupted 10 "go" [dict_text_exists_x] 10 AssertionRunner_init
       = Some (Err interrupt, s') /\
     _running (watcher s') = true /\ save_calls s' = 0%nat).
Proof.
  assert (Hwf : well_formed [dict_text_exists_x]).
  { constructor; [split; discriminate | constructor]. }
  split.
  - assert (Hrun : exists s',
              run_with_assertion offline_all 10 "go" [dict_text_exists_x] 10
                                 AssertionRunner_init = Some (Err offline, s')).
    { eexists. vm_compute. reflexivity. }
    destruct Hrun as [s' Hrun]. exists s'. split; [exact Hrun|].
    destruct (run_with_assertion_clears_running offline_all 10 "go" [dict_text_exists_x] 10
                AssertionRunner_init (Err offline) s' Hwf Hrun)
      as (objs & wr & s2 & Hobjs & Hwatch & Hflag & _).
    injection Hobjs as <-. vm_compute in Hwatch. injection Hwatch as <- <-.
    exact Hflag.
  - assert (Hrun : exists s',
              run_with_assertion interrupted 10 "go" [dict_text_exists_x] 10
                                 AssertionRunner_init = Some (Err interrupt, s')).
    { eexists. vm_compute. reflexivity. }
    destruct Hrun as [s' Hrun]. exists s'. split; [exact Hrun|].
    destruct (run_with_assertion_clears_running interrupted 10 "go" [dict_text_exists_x] 10
                AssertionRunner_init (Err interrupt) s' Hwf Hrun)
      as (objs & wr & s2 & Hobjs & Hwatch & Hflag & Hleft).
    injection Hobjs as <-. vm_compute in Hwatch. injection Hwatch as <- <-.
    split; [exact Hflag|].
    destruct (Hleft Hflag) as (e & _ & _ & ->). reflexivity.
Defined.

Lemma success_message_on_still_screen :
  exists result s' a ty v,
    run_with_assertion still_screen 10 "go" [dict_text_not_exists_x] 10 AssertionRunner_init
      = Some (Ok result, s') /\
    In a [dict_text_not_exists_x] /\ key_type a = Some ty /\ key_value a = Some v /\
    known_kind ty /\ message result = ("断言命中: " ++ ty ++ " = " ++ v)%string.
Proof.
  assert (Hrun : exists result s',
            run_with_assertion still_screen 10 "go" [dict_text_not_exists_x] 10
                               AssertionRunner_init = Some (Ok result, s') /\
            success result = true).
  { eexists. eexists. split; [vm_compute; reflexivity | reflexivity]. }
  destruct Hrun as [result [s' [Hrun Hsucc]]].
  destruct (success_message_names_the_assertion still_screen 10 "go" [dict_text_not_exists_x]
              10 AssertionRunner_init result s' Hrun Hsucc) as [a [ty [v H]]].
  exists result, s', a, ty, v. split; [exact Hrun | exact H].
Defined.

Lemma watch_clock_on_still_screen :
  exists s',
    watch still_screen 10 [text_exists_x] 4 AssertionRunner_init = Some (Ok (false, None), s') /\
    time_calls s' = (time_calls AssertionRunner_init
                     + (shot_calls s' - shot_calls AssertionRunner_init) + 2)%nat /\
    (4 <= time_time still_screen (time_calls s' - 1)
          - time_time still_screen (time_calls AssertionRunner_init))%Q.
Proof.
  eexists. split; [vm_compute; reflexivity|].
  eapply (proj2 (watch_clock_and_captures still_screen 10 [text_exists_x] 4
                   AssertionRunner_init (Ok (false, None)) _ _)).
  Unshelve. vm_compute. reflexivity.
Defined.

Lemma timed_out_run_on_still_screen :
  exists result s',
    run_with_assertion still_screen_saving 10 "go" [dict_text_exists_x] 4 AssertionRunner_init
      = Some (Ok result, s') /\
    success result = false /\ (4 <= elapsed_time result)%Q.
Proof.
  eexists. eexists. split; [vm_compute; reflexivity|].
  eapply (timed_out_run_took_the_timeout still_screen_saving 10 "go" [dict_text_exists_x] 4
            AssertionRunner_init).
  - apply toy_clock_monotone.
  - reflexivity.
  - vm_compute. reflexivity.
  - vm_compute. reflexivity.
Defined.

(** ** Captures before a hit *)

Lemma length_captured E (from n : nat) : (List.length (captured E from n) <= n)%nat.
Proof.
  revert from. induction n as [|n IH]; intros from; [apply Nat.le_refl|].
  unfold captured in *. cbn [seq flat_map]. rewrite length_app.
  specialize (IH (S from)).
  destruct (screenshot_func E from); cbn [List.length]; lia.
Qed.

(** X22.  A hit needs a full window: when [watch] returns a hit, the frames
    the window held at the call plus the frames captured since are at least
    [stable_frames]. *)
Theorem hit_needs_full_window E fuel assertions (timeout : Q) (s : St) m s' :
  watch E fuel assertions timeout s = Some (Ok (true, m), s') ->
  stable_frames (watcher s)
  <= Z.of_nat (List.length (_recent_screenshots (watcher s)))
     + Z.of_nat (shot_calls s' - shot_calls s).
Proof.
  intros Hrun.
  destruct (Z_lt_le_dec (Z.of_nat (List.length (_recent_screenshots (watcher s))))
                        (stable_frames (watcher s))) as [Hshort|Hlong]; [|lia].
  rewrite watch_unfold in Hrun. apply watch_loop_sound in Hrun.
  pose proof (loop_run_window E _ _ _ _ _ _ Hrun) as Hwin.
  apply loop_run_hit in Hrun. destruct Hrun as [s0 [x [msg [_ [Hcfg Hchk]]]]].
  pose proof Hchk as Hstate. apply check_assertions_state in Hstate.
  destruct Hstate as [found [out [[= <-] ->]]].
  destruct (check_assertions_some_stable E (watcher s0) assertions x) as [o Hst].
  { exists msg, out, s0, (emit out (hit_state (Some msg) s0)). auto. }
  assert (Hs : exists o, emits (watcher s0) (_is_screen_stable E) true o) by now exists o.
  apply is_screen_stable_true_iff in Hs. destruct Hs as [Hfull _].
  destruct Hcfg as (_ & _ & _ & Hsf & _).
  cbn [loop_entry watcher emit tick_clock set_watcher with_running stable_frames] in Hsf.
  rewrite Hsf in Hfull.
  unfold window_follows, window_bounded in Hwin.
  cbn [loop_entry watcher shot_calls emit tick_clock set_watcher with_running hit_state
       _recent_screenshots stable_frames] in Hwin.
  cbn [watcher shot_calls emit set_watcher with_running hit_state].
  rewrite Hwin in Hfull by lia.
  pose proof (length_captured E (shot_calls s) (shot_calls s0 - shot_calls s)) as Hcap.
  unfold keep_last in Hfull. rewrite length_skipn, length_app in Hfull. lia.
Qed.

Lemma hit_needs_full_window_on_still_screen :
  exists m s',
    watch still_screen 10 [text_not_exists_x] 10 AssertionRunner_init
      = Some (Ok (true, m), s') /\
    stable_frames (watcher AssertionRunner_init)
    <= Z.of_nat (List.length (_recent_screenshots (watcher AssertionRunner_init)))
       + Z.of_nat (shot_calls s' - shot_calls AssertionRunner_init).
Proof.
  eexists. eexists. split; [vm_compute; reflexivity|].
  eapply (hit_needs_full_window still_screen 10 [text_not_exists_x] 10 AssertionRunner_init).
  vm_compute. reflexivity.
Defined.
